(** * Restaurant decision wheel: API layer (Cloudflare Pages Functions)

    Shallow embedding of the server-side JavaScript of the repository:
    - [jwt-helper.js]            : [sign], [verify], base64url helpers;
    - [_shared.js]               : [validateRestaurantData], [validateServiceTypes],
                                   [validateProfileId], [checkRateLimit],
                                   [errorResponse], [successResponse];
    - [auth.js]                  : [onRequestPost];
    - [restaurants.js]           : [onRequestPost], [onRequestPut];
    - [restaurants/[id].js]      : [onRequestDelete];
    - [profiles.js]              : [onRequestPost], [onRequestPut];
    - [profiles/[id].js]         : [onRequestDelete].

    JSON values are [jsval]; numbers are modelled as integers (all numbers
    this code handles are ids, counters and timestamps): [JNum n] is the
    number value of [n], which for [|n| >= 2^53] is the double nearest [n]
    ([Z_to_dec] renders it as [String] does).  Equality of numbers is
    compared on the integers, so the statements about it concern safe
    integers ([|n| < 2^53]).  Strings are
    sequences of 8-bit code units. *)

From Stdlib Require Import ZArith Ascii String.
From stdpp Require Import base list gmap strings.

Local Open Scope Z_scope.
Local Set Warnings "-register-all".

(* ------------------------------------------------------------------ *)
(** ** JSON / JavaScript values *)

Inductive jsval : Type :=
| JUndef
| JNull
| JBool (b : bool)
| JNum (n : Z)
| JStr (s : string)
| JArr (xs : list jsval)
| JObj (fields : list (string * jsval)).

(** JavaScript truthiness (no NaN among integers). *)
Definition truthy (v : jsval) : bool :=
  match v with
  | JUndef | JNull => false
  | JBool b => b
  | JNum n => negb (n =? 0)
  | JStr s => negb (String.eqb s "")
  | JArr _ | JObj _ => true
  end.

Definition is_array (v : jsval) : bool :=
  match v with JArr _ => true | _ => false end.

Fixpoint assoc_get (k : string) (fs : list (string * jsval)) : jsval :=
  match fs with
  | [] => JUndef
  | (k', v) :: fs' => if String.eqb k k' then v else assoc_get k fs'
  end.

(** Property read [v.k]: a TypeError ([None]) on [null] and [undefined];
    primitives and arrays have none of the (non-index) keys read here. *)
Definition get_prop (v : jsval) (k : string) : option jsval :=
  match v with
  | JUndef | JNull => None
  | JObj fs => Some (assoc_get k fs)
  | _ => Some JUndef
  end.

Fixpoint assoc_set (k : string) (x : jsval) (fs : list (string * jsval))
  : list (string * jsval) :=
  match fs with
  | [] => [(k, x)]
  | (k', v) :: fs' =>
      if String.eqb k k' then (k', x) :: fs' else (k', v) :: assoc_set k x fs'
  end.

(** Property write [v.k = x] on an object: an existing key keeps its
    position, a new key is appended. *)
Definition set_prop (v : jsval) (k : string) (x : jsval) : jsval :=
  match v with
  | JObj fs => JObj (assoc_set k x fs)
  | _ => v
  end.

(** Strict equality [===].  Arrays and objects compare by reference; the
    values compared by this code always come from different [JSON.parse]
    calls (request body against stored document), so they never alias. *)
Definition strict_eq (a b : jsval) : bool :=
  match a, b with
  | JUndef, JUndef | JNull, JNull => true
  | JBool x, JBool y => Bool.eqb x y
  | JNum x, JNum y => x =? y
  | JStr x, JStr y => String.eqb x y
  | _, _ => false
  end.

(** Decimal rendering of an integer. *)
Fixpoint digits_rev (fuel : nat) (n : Z) (acc : string) : string :=
  match fuel with
  | O => acc
  | S f =>
      let acc' := String (ascii_of_nat (48 + Z.to_nat (n mod 10))) acc in
      if n / 10 =? 0 then acc' else digits_rev f (n / 10) acc'
  end.

(** Plain decimal digits of an integer, with a leading ["-"] when negative. *)
Definition Z_to_plain_dec (n : Z) : string :=
  let fuel := S (Z.to_nat (Z.log2 (Z.abs n))) in
  if n <? 0 then "-" +:+ digits_rev fuel (- n) "" else digits_rev fuel n "".

(** The double nearest to a nonnegative integer [a] (ties to even): [a]
    itself below [2^53], otherwise [a] rounded to 53 significant bits. *)
Definition round_double (a : Z) : Z :=
  if a <? 2 ^ 53 then a else
  let sh := Z.log2 a - 52 in
  let q := Z.shiftr a sh in
  let r := a - Z.shiftl q sh in
  let half := 2 ^ (sh - 1) in
  Z.shiftl (if (half <? r) || ((r =? half) && Z.odd q) then q + 1 else q) sh.

(** The decimal candidates with [k] significant digits around the double
    [v] of [d] digits: the nearest one that reads back as [v] (ties to the
    even digit string), if any. *)
Definition candidate_at (v d k : Z) : option Z :=
  let p := 10 ^ (d - k) in
  let lo := v / p * p in
  let hi := lo + p in
  match round_double lo =? v, round_double hi =? v with
  | true, true =>
      Some (if v - lo <? hi - v then lo
            else if hi - v <? v - lo then hi
            else if Z.even (lo / p) then lo else hi)
  | true, false => Some lo
  | false, true => Some hi
  | false, false => None
  end.

Fixpoint shortest_from (fuel : nat) (v d k : Z) : Z :=
  match fuel with
  | O => v
  | S f =>
      match candidate_at v d k with
      | Some c => c
      | None => shortest_from f v d (k + 1)
      end
  end.

(** The value of the shortest decimal digit string that reads back as the
    double [v] ([k] minimal in step 5 of Number::toString). *)
Definition shortest_decimal (v : Z) : Z :=
  let d := Z.of_nat (String.length (Z_to_plain_dec v)) in
  shortest_from (Z.to_nat d) v d 1.

Fixpoint strip_trailing_zeros (s : string) : string :=
  match s with
  | EmptyString => EmptyString
  | String c s' =>
      let t := strip_trailing_zeros s' in
      if String.eqb t "" && Ascii.eqb c "0" then "" else String c t
  end.

(** [Number::toString] of a double [v >= 2^53] that is an integer: the
    shortest digits padded with zeros up to 21 digits, exponent notation
    [d.ddde+n] beyond. *)
Definition large_double_to_string (v : Z) : string :=
  let digits := Z_to_plain_dec (shortest_decimal v) in
  let n := String.length digits in
  if (n <=? 21)%nat then digits else
  match strip_trailing_zeros digits with
  | String c rest =>
      String c ((if String.eqb rest "" then "" else "." +:+ rest)
                +:+ "e+" +:+ Z_to_plain_dec (Z.of_nat n - 1))
  | EmptyString => ""
  end.

Definition nonneg_number_to_string (a : Z) : string :=
  if a <? 2 ^ 53 then Z_to_plain_dec a else
  let v := round_double a in
  if 2 ^ 1024 <=? v then "Infinity" else large_double_to_string v.

(** [String(n)] for the number value of the integer [n]. *)
Definition Z_to_dec (n : Z) : string :=
  if n <? 0 then "-" +:+ nonneg_number_to_string (- n) else nonneg_number_to_string n.

Fixpoint join (sep : string) (xs : list string) : string :=
  match xs with
  | [] => ""
  | [x] => x
  | x :: xs' => x +:+ sep +:+ join sep xs'
  end.

(** The double-quote character. *)
Definition dq : string := String (ascii_of_nat 34) EmptyString.

(** [String(v)] / template-literal conversion; an array is joined with ","
    and its [null]/[undefined] elements become empty strings. *)
Fixpoint js_to_string (v : jsval) : string :=
  match v with
  | JUndef => "undefined"
  | JNull => "null"
  | JBool true => "true"
  | JBool false => "false"
  | JNum n => Z_to_dec n
  | JStr s => s
  | JArr xs =>
      join "," (map (fun x => match x with
                              | JUndef | JNull => ""
                              | _ => js_to_string x
                              end) xs)
  | JObj _ => "[object Object]"
  end.

(** [Array.prototype.join(sep)]. *)
Definition array_join (sep : string) (xs : list jsval) : string :=
  join sep (map (fun x => match x with
                          | JUndef | JNull => ""
                          | _ => js_to_string x
                          end) xs).

(** A JavaScript step that may throw a TypeError is an [option]. *)
Notation "'let?' x ':=' m 'in' k" :=
  (match m with Some x => k | None => None end)
  (at level 200, x pattern, m at level 100, k at level 200).

(* ------------------------------------------------------------------ *)
(** ** [_shared.js]: validation *)

(** [String.prototype.trim] on 8-bit code units: removes TAB, LF, VT, FF,
    CR, SPACE and NBSP at both ends. *)
Definition js_space (c : ascii) : bool :=
  let n := nat_of_ascii c in
  ((9 <=? n)%nat && (n <=? 13)%nat) || (n =? 32)%nat || (n =? 160)%nat.

Fixpoint trim_left (s : string) : string :=
  match s with
  | EmptyString => EmptyString
  | String c s' => if js_space c then trim_left s' else s
  end.

Fixpoint rev_str_acc (s acc : string) : string :=
  match s with
  | EmptyString => acc
  | String c s' => rev_str_acc s' (String c acc)
  end.

Definition string_rev (s : string) : string := rev_str_acc s EmptyString.

Definition js_trim (s : string) : string :=
  string_rev (trim_left (string_rev (trim_left s))).

(** [x.trim()]: a TypeError unless [x] is a string. *)
Definition call_trim (v : jsval) : option string :=
  match v with JStr s => Some (js_trim s) | _ => None end.

(** [arr.includes(x)] for arrays of strings (SameValueZero). *)
Definition includes_str (xs : list string) (x : jsval) : bool :=
  existsb (fun s => strict_eq (JStr s) x) xs.

Definition validServiceTypes : list string :=
  ["takeout"; "delivery"; "dine-in"; "at-home"].

Record service_validation := { sv_valid : bool; sv_invalidTypes : list jsval }.

(** [validateServiceTypes(serviceTypes)] *)
Definition validateServiceTypes (serviceTypes : list jsval) : service_validation :=
  let invalidTypes := List.filter (fun st => negb (includes_str validServiceTypes st))
                             serviceTypes in
  {| sv_valid := (length invalidTypes =? 0)%nat; sv_invalidTypes := invalidTypes |}.

(** [validateProfileId(profileId)]: [/^[a-z0-9-]+$/.test(profileId)], the
    argument being converted to a string first. *)
Definition profile_id_char (c : ascii) : bool :=
  let n := nat_of_ascii c in
  ((97 <=? n)%nat && (n <=? 122)%nat) || ((48 <=? n)%nat && (n <=? 57)%nat)
  || (n =? 45)%nat.

Fixpoint all_chars (p : ascii -> bool) (s : string) : bool :=
  match s with
  | EmptyString => true
  | String c s' => p c && all_chars p s'
  end.

Definition validateProfileId (profileId : jsval) : bool :=
  let s := js_to_string profileId in
  negb (String.eqb s "") && all_chars profile_id_char s.

Record validation := { valid : bool; errors : list string }.

(** [validateRestaurantData(restaurant)]; [None] is the TypeError thrown
    by [restaurant.name] on [null]/[undefined] or by [.trim()] on a truthy
    non-string name.  The [errors] array is accumulated by [push]. *)
(** [!restaurant.name || restaurant.name.trim() === ''] *)
Definition name_is_blank (name : jsval) : option bool :=
  if negb (truthy name) then Some true
  else let? t := call_trim name in Some (String.eqb t "").

Definition validateRestaurantData (restaurant : jsval) : option validation :=
  let? name := get_prop restaurant "name" in
  let? name_blank := name_is_blank name in
  let errors0 : list string := [] in
  let errors1 := if name_blank then errors0 ++ ["Restaurant name is required"]
                 else errors0 in
  let? foodTypes := get_prop restaurant "foodTypes" in
  let errors2 :=
    match foodTypes with
    | JArr (_ :: _) => errors1
    | _ => errors1 ++ ["At least one food type is required"]
    end in
  let? serviceTypes := get_prop restaurant "serviceTypes" in
  let errors3 :=
    match serviceTypes with
    | JArr (_ :: _) => errors2
    | _ => errors2 ++ ["At least one service type is required"]
    end in
  let errors4 :=
    match serviceTypes with
    | JArr sts =>
        let sv := validateServiceTypes sts in
        if negb (sv_valid sv)
        then errors3 ++ ["Invalid service types: " +:+ array_join ", " (sv_invalidTypes sv)]
        else errors3
    | _ => errors3
    end in
  let? profiles := get_prop restaurant "profiles" in
  let errors5 := if truthy profiles && negb (is_array profiles)
                 then errors4 ++ ["Profiles must be an array"] else errors4 in
  let? dietary := get_prop restaurant "dietaryRestrictions" in
  let errors6 := if truthy dietary && negb (is_array dietary)
                 then errors5 ++ ["Dietary restrictions must be an array"] else errors5 in
  Some {| valid := (length errors6 =? 0)%nat; errors := errors6 |}.

(* ------------------------------------------------------------------ *)
(** ** Store effects: [fetchFromGitHub] and [updateGitHub]

    A handler is a program over two store operations.  [Fetch k h] is
    [await fetchFromGitHub(env)]: it continues with [k data sha], or with
    [h message] when the call throws.  [Commit content sha message k h] is
    [await updateGitHub(env, content, sha, message)], the compare-and-swap
    write.  [Throw] is a JavaScript exception. *)

Inductive cmd (A : Type) : Type :=
| Ret (a : A)
| Throw (msg : string)
| Fetch (k : jsval -> nat -> cmd A) (h : string -> cmd A)
| Commit (content : jsval) (sha : nat) (message : string)
         (k : cmd A) (h : string -> cmd A).

Arguments Ret {A} a.
Arguments Throw {A} msg.
Arguments Fetch {A} k h.
Arguments Commit {A} content sha message k h.

Fixpoint cbind {A B} (m : cmd A) (f : A -> cmd B) : cmd B :=
  match m with
  | Ret a => f a
  | Throw e => Throw e
  | Fetch k h => Fetch (fun d v => cbind (k d v) f) (fun e => cbind (h e) f)
  | Commit c v msg k h => Commit c v msg (cbind k f) (fun e => cbind (h e) f)
  end.

(** [try { m } catch (error) { h(error.message) }] *)
Fixpoint ccatch {A} (m : cmd A) (h : string -> cmd A) : cmd A :=
  match m with
  | Ret a => Ret a
  | Throw e => h e
  | Fetch k h' => Fetch (fun d v => ccatch (k d v) h) (fun e => ccatch (h' e) h)
  | Commit c v msg k h' => Commit c v msg (ccatch k h) (fun e => ccatch (h' e) h)
  end.

Notation "'let!' x ':=' m 'in' k" := (cbind m (fun x => k))
  (at level 200, x pattern, m at level 100, k at level 200).

Definition of_opt {A} (o : option A) : cmd A :=
  match o with Some a => Ret a | None => Throw "TypeError" end.

Definition fetchFromGitHub : cmd (jsval * nat) :=
  Fetch (fun data sha => Ret (data, sha)) Throw.

Definition updateGitHub (content : jsval) (sha : nat) (message : string) : cmd unit :=
  Commit content sha message (Ret tt) Throw.

(** The external store: the current document, its version tag, and whether
    the API answers.  A write succeeds only with the current tag, and then
    moves the tag. *)
Record store := { st_doc : jsval; st_sha : nat; st_online : bool }.

Fixpoint run {A} (s : store) (m : cmd A) : (A + string) * store :=
  match m with
  | Ret a => (inl a, s)
  | Throw e => (inr e, s)
  | Fetch k h =>
      if st_online s then run s (k (st_doc s) (st_sha s))
      else run s (h "GitHub API error")
  | Commit c v msg k h =>
      if st_online s && (v =? st_sha s)%nat
      then run {| st_doc := c; st_sha := S (st_sha s); st_online := true |} k
      else run s (h "GitHub update failed")
  end.

(** A program that neither reads nor writes the store. *)
Definition store_free {A} (m : cmd A) : Prop :=
  match m with Ret _ | Throw _ => True | _ => False end.

(* ------------------------------------------------------------------ *)
(** ** Responses *)

Record env := {
  ALLOWED_ORIGIN : jsval;
  ADMIN_PASSWORD : jsval;
  JWT_SECRET : jsval
}.

Record response := {
  status : Z;
  headers : list (string * string);
  resp_body : jsval
}.

Definition getCorsHeaders (e : env) : list (string * string) :=
  let allowedOrigin :=
    if truthy (ALLOWED_ORIGIN e) then js_to_string (ALLOWED_ORIGIN e) else "*" in
  [("Access-Control-Allow-Origin", allowedOrigin);
   ("Access-Control-Allow-Methods", "GET, POST, PUT, DELETE, OPTIONS");
   ("Access-Control-Allow-Headers", "Content-Type, Authorization")].

Definition errorResponse (message : string) (st : Z) (e : env) : response :=
  {| status := st;
     headers := ("Content-Type", "application/json") :: getCorsHeaders e;
     resp_body := JObj [("error", JStr message)] |}.

Definition successResponse (data : jsval) (e : env) : response :=
  {| status := 200;
     headers := ("Content-Type", "application/json") :: getCorsHeaders e;
     resp_body := data |}.

(* ------------------------------------------------------------------ *)
(** ** Array methods *)

Fixpoint find_index (p : jsval -> option bool) (xs : list jsval) (i : Z) : option Z :=
  match xs with
  | [] => Some (-1)
  | x :: xs' =>
      let? b := p x in
      if b then Some i else find_index p xs' (i + 1)
  end.

(** [arr.findIndex(p)]: a TypeError when [arr] is not an array. *)
Definition array_findIndex (arr : jsval) (p : jsval -> option bool) : option Z :=
  match arr with JArr xs => find_index p xs 0 | _ => None end.

(** [arr[i] = x] for an index inside the array. *)
Definition array_set (arr : jsval) (i : Z) (x : jsval) : jsval :=
  match arr with JArr xs => JArr (<[Z.to_nat i := x]> xs) | _ => arr end.

(** [arr.splice(i, 1)] for an index inside the array. *)
Definition array_remove (arr : jsval) (i : Z) : jsval :=
  match arr with
  | JArr xs => JArr (take (Z.to_nat i) xs ++ drop (S (Z.to_nat i)) xs)
  | _ => arr
  end.

Definition array_nth (arr : jsval) (i : Z) : jsval :=
  match arr with JArr xs => default JUndef (xs !! Z.to_nat i) | _ => JUndef end.

(** [arr.push(x)]: a TypeError when [arr] is not an array. *)
Definition array_push (arr : jsval) (x : jsval) : option jsval :=
  match arr with JArr xs => Some (JArr (xs ++ [x])) | _ => None end.

(* ------------------------------------------------------------------ *)
(** ** Mutation handlers

    Each handler starts after [await verifyAuth(request, env)], whose
    result is [authed].  [body] is [await request.json()] ([None]: the body
    is not JSON and the call throws).  [uuid] is the value [generateUUID()]
    would return. *)

Definition json_body (body : option jsval) : cmd jsval :=
  match body with Some v => Ret v | None => Throw "Unexpected token in JSON" end.

(** The headers of the GET responses: [Content-Type], the CORS headers,
    then [Cache-Control]. *)
Definition get_headers (e : env) : list (string * string) :=
  ("Content-Type", "application/json") :: getCorsHeaders e
  ++ [("Cache-Control", "public, max-age=60")].

Module Restaurants.

(** [restaurants.js], [onRequestGet] *)
Definition onRequestGet (e : env) : cmd response :=
  ccatch (
    let! fetched := fetchFromGitHub in
    let '(data, _) := fetched in
    Ret {| status := 200; headers := get_headers e; resp_body := data |})
  (fun _ => Ret (errorResponse "Failed to fetch restaurants" 500 e)).

(** [restaurants.js], [onRequestPost] *)
Definition onRequestPost (e : env) (authed : bool) (body : option jsval)
    (uuid : string) : cmd response :=
  if negb authed then Ret (errorResponse "Unauthorized" 401 e) else
  ccatch (
    let! newRestaurant := json_body body in
    let! validation := of_opt (validateRestaurantData newRestaurant) in
    if negb (valid validation)
    then Ret (errorResponse (join ", " (errors validation)) 400 e) else
    let! fetched := fetchFromGitHub in
    let '(data0, sha) := fetched in
    let! rs0 := of_opt (get_prop data0 "restaurants") in
    let data1 := if negb (truthy rs0) then set_prop data0 "restaurants" (JArr [])
                 else data0 in
    let! id := of_opt (get_prop newRestaurant "id") in
    let newRestaurant' := if negb (truthy id)
                          then set_prop newRestaurant "id" (JStr uuid)
                          else newRestaurant in
    let! rs1 := of_opt (get_prop data1 "restaurants") in
    let! rs2 := of_opt (array_push rs1 newRestaurant') in
    let data2 := set_prop data1 "restaurants" rs2 in
    let! name := of_opt (get_prop newRestaurant' "name") in
    let! _ := updateGitHub data2 sha ("Add restaurant: " +:+ js_to_string name) in
    Ret (successResponse (JObj [("success", JBool true);
                                ("restaurant", newRestaurant')]) e))
  (fun msg => Ret (errorResponse ("Failed to add restaurant: " +:+ msg) 500 e)).

(** The [findIndex] callback of [onRequestPut]: [r.id === updatedRestaurant.id]. *)
Definition put_match (id : jsval) (r : jsval) : option bool :=
  let? rid := get_prop r "id" in Some (strict_eq rid id).

(** [restaurants.js], [onRequestPut] *)
Definition onRequestPut (e : env) (authed : bool) (body : option jsval) : cmd response :=
  if negb authed then Ret (errorResponse "Unauthorized" 401 e) else
  ccatch (
    let! updatedRestaurant := json_body body in
    let! validation := of_opt (validateRestaurantData updatedRestaurant) in
    if negb (valid validation)
    then Ret (errorResponse (join ", " (errors validation)) 400 e) else
    let! id := of_opt (get_prop updatedRestaurant "id") in
    if negb (truthy id)
    then Ret (errorResponse "Restaurant ID is required for updates" 400 e) else
    let! fetched := fetchFromGitHub in
    let '(data, sha) := fetched in
    let! rs := of_opt (get_prop data "restaurants") in
    let! index := of_opt (array_findIndex rs (put_match id)) in
    if index =? -1 then Ret (errorResponse "Restaurant not found" 404 e) else
    let data' := set_prop data "restaurants" (array_set rs index updatedRestaurant) in
    let! name := of_opt (get_prop updatedRestaurant "name") in
    let! _ := updateGitHub data' sha ("Update restaurant: " +:+ js_to_string name) in
    Ret (successResponse (JObj [("success", JBool true);
                                ("restaurant", updatedRestaurant)]) e))
  (fun msg => Ret (errorResponse ("Failed to update restaurant: " +:+ msg) 500 e)).

(** The [findIndex] callback of [onRequestDelete]:
    [String(r.id) === String(restaurantId)]. *)
Definition delete_match (restaurantId : string) (r : jsval) : option bool :=
  let? rid := get_prop r "id" in Some (String.eqb (js_to_string rid) restaurantId).

(** [restaurants/[id].js], [onRequestDelete]; [restaurantId] is [params.id]. *)
Definition onRequestDelete (e : env) (authed : bool) (restaurantId : string)
    : cmd response :=
  if negb authed then Ret (errorResponse "Unauthorized" 401 e) else
  ccatch (
    let! fetched := fetchFromGitHub in
    let '(data, sha) := fetched in
    let! rs := of_opt (get_prop data "restaurants") in
    let! index := of_opt (array_findIndex rs (delete_match restaurantId)) in
    if index =? -1 then Ret (errorResponse "Restaurant not found" 404 e) else
    let deletedRestaurant := array_nth rs index in
    let data' := set_prop data "restaurants" (array_remove rs index) in
    let! name := of_opt (get_prop deletedRestaurant "name") in
    let! _ := updateGitHub data' sha ("Delete restaurant: " +:+ js_to_string name) in
    Ret (successResponse (JObj [("success", JBool true);
                                ("deleted", deletedRestaurant)]) e))
  (fun msg => Ret (errorResponse ("Failed to delete restaurant: " +:+ msg) 500 e)).

End Restaurants.

Module Profiles.

(** [profiles.js], [onRequestGet]: [{ profiles: data.profiles || [] }] *)
Definition onRequestGet (e : env) : cmd response :=
  ccatch (
    let! fetched := fetchFromGitHub in
    let '(data, _) := fetched in
    let! ps := of_opt (get_prop data "profiles") in
    Ret {| status := 200; headers := get_headers e;
           resp_body := JObj [("profiles", if truthy ps then ps else JArr [])] |})
  (fun _ => Ret (errorResponse "Failed to fetch profiles" 500 e)).

Definition reservedIds : list string := ["all"].

Definition id_match (id : jsval) (p : jsval) : option bool :=
  let? pid := get_prop p "id" in Some (strict_eq pid id).

(** [arr.find(p)] as a truth value: the first element that satisfies [p],
    or [undefined] (falsy) when none does; a TypeError when [arr] is not an
    array. *)
Definition array_find_truthy (arr : jsval) (p : jsval -> option bool) : option bool :=
  let? i := array_findIndex arr p in
  Some (if i =? -1 then false else truthy (array_nth arr i)).

(** [profiles.js], [onRequestPost] *)
Definition onRequestPost (e : env) (authed : bool) (body : option jsval) : cmd response :=
  if negb authed then Ret (errorResponse "Unauthorized" 401 e) else
  ccatch (
    let! newProfile := json_body body in
    let! id := of_opt (get_prop newProfile "id") in
    let! missing := (if negb (truthy id) then Ret true
                     else let! name := of_opt (get_prop newProfile "name") in
                          Ret (negb (truthy name))) in
    if missing then Ret (errorResponse "Missing required fields: id and name" 400 e) else
    if negb (validateProfileId id)
    then Ret (errorResponse
                "Profile ID must contain only lowercase letters, numbers, and hyphens"
                400 e) else
    if includes_str reservedIds id
    then Ret (errorResponse "Profile ID is reserved and cannot be used" 400 e) else
    let! fetched := fetchFromGitHub in
    let '(data0, sha) := fetched in
    let! ps0 := of_opt (get_prop data0 "profiles") in
    let data1 := if negb (truthy ps0)
                 then set_prop data0 "profiles"
                        (JArr [JObj [("id", JStr "all"); ("name", JStr "All Restaurants")]])
                 else data0 in
    let! ps1 := of_opt (get_prop data1 "profiles") in
    let! exists_ := of_opt (array_find_truthy ps1 (id_match id)) in
    if exists_ then Ret (errorResponse "Profile with this ID already exists" 400 e) else
    let! ps2 := of_opt (array_push ps1 newProfile) in
    let data2 := set_prop data1 "profiles" ps2 in
    let! name := of_opt (get_prop newProfile "name") in
    let! _ := updateGitHub data2 sha ("Add profile: " +:+ js_to_string name) in
    Ret (successResponse (JObj [("success", JBool true); ("profile", newProfile)]) e))
  (fun msg => Ret (errorResponse ("Failed to add profile: " +:+ msg) 500 e)).

(** [profiles.js], [onRequestPut] *)
Definition onRequestPut (e : env) (authed : bool) (body : option jsval) : cmd response :=
  if negb authed then Ret (errorResponse "Unauthorized" 401 e) else
  ccatch (
    let! updatedProfile := json_body body in
    let! id := of_opt (get_prop updatedProfile "id") in
    let! missing := (if negb (truthy id) then Ret true
                     else let! name := of_opt (get_prop updatedProfile "name") in
                          Ret (negb (truthy name))) in
    if missing then Ret (errorResponse "Missing required fields: id and name" 400 e) else
    if strict_eq id (JStr "all")
    then Ret (errorResponse ("Cannot edit the default " +:+ dq +:+ "All Restaurants" +:+ dq +:+ " profile") 400 e) else
    let! fetched := fetchFromGitHub in
    let '(data, sha) := fetched in
    let! ps := of_opt (get_prop data "profiles") in
    let! index := of_opt (array_findIndex ps (id_match id)) in
    if index =? -1 then Ret (errorResponse "Profile not found" 404 e) else
    let! name := of_opt (get_prop updatedProfile "name") in
    let target := array_nth ps index in
    let data' := set_prop data "profiles"
                   (array_set ps index (set_prop target "name" name)) in
    let! _ := updateGitHub data' sha ("Update profile: " +:+ js_to_string name) in
    Ret (successResponse (JObj [("success", JBool true);
                                ("profile", set_prop target "name" name)]) e))
  (fun msg => Ret (errorResponse ("Failed to update profile: " +:+ msg) 500 e)).

(** The cascade of [profiles/[id].js]: every restaurant whose [profiles]
    is an array gets [profiles.filter((p) => p !== profileId)]. *)
Definition cascade_restaurant (profileId : string) (r : jsval) : option jsval :=
  let? ps := get_prop r "profiles" in
  match ps with
  | JArr xs => Some (set_prop r "profiles"
                       (JArr (List.filter (fun p => negb (strict_eq p (JStr profileId))) xs)))
  | _ => Some r
  end.

(** [data.restaurants.forEach(...)]: a TypeError when [restaurants] is a
    truthy non-array, or when one of its elements is [null]. *)
Fixpoint cascade_all (profileId : string) (rs : list jsval) : option (list jsval) :=
  match rs with
  | [] => Some []
  | r :: rs' =>
      let? r' := cascade_restaurant profileId r in
      let? rs'' := cascade_all profileId rs' in
      Some (r' :: rs'')
  end.

(** [profiles/[id].js], [onRequestDelete]; [profileId] is [params.id]. *)
Definition onRequestDelete (e : env) (authed : bool) (profileId : string)
    : cmd response :=
  if negb authed then Ret (errorResponse "Unauthorized" 401 e) else
  ccatch (
    if String.eqb profileId "all"
    then Ret (errorResponse ("Cannot delete the default " +:+ dq +:+ "All Restaurants" +:+ dq +:+ " profile") 400 e)
    else
    let! fetched := fetchFromGitHub in
    let '(data0, sha) := fetched in
    let! ps := of_opt (get_prop data0 "profiles") in
    if negb (truthy ps) then Ret (errorResponse "No profiles found" 404 e) else
    let! index := of_opt (array_findIndex ps (id_match (JStr profileId))) in
    if index =? -1 then Ret (errorResponse "Profile not found" 404 e) else
    let deletedProfile := array_nth ps index in
    let data1 := set_prop data0 "profiles" (array_remove ps index) in
    let! rs := of_opt (get_prop data1 "restaurants") in
    let! data2 :=
      (if truthy rs then
         match rs with
         | JArr xs => let! xs' := of_opt (cascade_all profileId xs) in
                      Ret (set_prop data1 "restaurants" (JArr xs'))
         | _ => Throw "data.restaurants.forEach is not a function"
         end
       else Ret data1) in
    let! name := of_opt (get_prop deletedProfile "name") in
    let! _ := updateGitHub data2 sha ("Delete profile: " +:+ js_to_string name) in
    Ret (successResponse (JObj [("success", JBool true);
                                ("deleted", deletedProfile)]) e))
  (fun msg => Ret (errorResponse ("Failed to delete profile: " +:+ msg) 500 e)).

End Profiles.

(* ------------------------------------------------------------------ *)
(** ** [_shared.js]: [checkRateLimit]

    [rateLimitStore] is a process-wide [Map] from client key to entry,
    threaded through the calls.  [now] is the [Date.now()] read by the
    call; times are milliseconds. *)

Record rl_entry := { count : Z; resetAt : Z }.

Record rl_result := { allowed : bool; remaining : Z; rl_resetAt : Z }.

(** [request.headers.get('CF-Connecting-IP') || 'unknown'] *)
Definition client_key (ip : option string) : string :=
  match ip with
  | Some s => if String.eqb s "" then "unknown" else s
  | None => "unknown"
  end.

(** The periodic clean-up: with more than 10000 keys, every entry whose
    window has passed ([now > resetAt]) is deleted. *)
Definition cleanup (now : Z) (m : gmap string rl_entry) : gmap string rl_entry :=
  if (10000 <? Z.of_nat (size m))%Z
  then filter (fun kv : string * rl_entry => ~ (now > resetAt kv.2)) m
  else m.

Definition checkRateLimit (m : gmap string rl_entry) (ip : option string)
    (maxRequests windowMs now : Z) : rl_result * gmap string rl_entry :=
  let key := client_key ip in
  let m1 := cleanup now m in
  let fresh :=
    ({| allowed := true; remaining := maxRequests - 1; rl_resetAt := now + windowMs |},
     <[key := {| count := 1; resetAt := now + windowMs |}]> m1) in
  match m1 !! key with
  | None => fresh
  | Some entry =>
      if now >? resetAt entry then fresh else
      let entry' := {| count := count entry + 1; resetAt := resetAt entry |} in
      let m2 := <[key := entry']> m1 in
      if count entry' >? maxRequests
      then ({| allowed := false; remaining := 0; rl_resetAt := resetAt entry' |}, m2)
      else ({| allowed := true; remaining := maxRequests - count entry';
               rl_resetAt := resetAt entry' |}, m2)
  end.

(* ------------------------------------------------------------------ *)
(** ** [auth.js], [onRequestPost]

    [clock i] is the value of the [i]-th [Date.now()] of the request:
    [0] in [checkRateLimit], then [1] for the [Retry-After] header or for
    [iat], and [2] for [exp].  [sessionId] is [crypto.randomUUID()];
    [jwt_sign] is [jwt.sign] of the [@tsndr/cloudflare-worker-jwt]
    package. *)

Record auth_request := { ar_ip : option string; ar_body : option jsval }.

(** [Math.ceil(x / d)] for integers and [d > 0]. *)
Definition ceil_div (x d : Z) : Z := - ((- x) / d).

(** The payload object built on a correct password. *)
Definition auth_payload (sessionId : string) (t_iat t_exp : Z) : jsval :=
  JObj [("sessionId", JStr sessionId);
        ("iat", JNum (t_iat / 1000));
        ("exp", JNum (t_exp / 1000 + 60 * 60))].

Definition auth_error (e : env) (st : Z) (msg : string) : response :=
  {| status := st;
     headers := ("Content-Type", "application/json") :: getCorsHeaders e;
     resp_body := JObj [("authenticated", JBool false); ("error", JStr msg)] |}.

Definition zero_pad (w : nat) (n : Z) : string :=
  let s := Z_to_plain_dec n in
  String.concat "" (repeat "0" (w - String.length s)) +:+ s.

(** [Date.prototype.toISOString] of a time value (milliseconds since the
    epoch, UTC, proleptic Gregorian calendar); years outside 0..9999 in the
    six-digit signed form.  A time value beyond 8.64e15 ms makes an
    invalid [Date], whose [toISOString] throws a [RangeError]; the model
    renders every time value, so for the auth handler it assumes clock
    readings within the [Date] range. *)
Definition date_iso (t : Z) : string :=
  let days := t / 86400000 in
  let ms := t mod 86400000 in
  let z := days + 719468 in
  let era := z / 146097 in
  let doe := z - era * 146097 in
  let yoe := (doe - doe / 1460 + doe / 36524 - doe / 146096) / 365 in
  let doy := doe - (365 * yoe + yoe / 4 - yoe / 100) in
  let mp := (5 * doy + 2) / 153 in
  let day := doy - (153 * mp + 2) / 5 + 1 in
  let month := if mp <? 10 then mp + 3 else mp - 9 in
  let year := yoe + era * 400 + (if month <=? 2 then 1 else 0) in
  let ys := if (0 <=? year) && (year <=? 9999) then zero_pad 4 year
            else (if year <? 0 then "-" else "+") +:+ zero_pad 6 (Z.abs year) in
  ys +:+ "-" +:+ zero_pad 2 month +:+ "-" +:+ zero_pad 2 day +:+ "T"
     +:+ zero_pad 2 (ms / 3600000) +:+ ":" +:+ zero_pad 2 (ms / 60000 mod 60) +:+ ":"
     +:+ zero_pad 2 (ms / 1000 mod 60) +:+ "." +:+ zero_pad 3 (ms mod 1000) +:+ "Z".

Definition auth_onRequestPost (jwt_sign : jsval -> jsval -> string) (e : env)
    (m : gmap string rl_entry) (req : auth_request) (clock : nat -> Z)
    (sessionId : string) : response * gmap string rl_entry :=
  let '(rateCheck, m') := checkRateLimit m (ar_ip req) 5 60000 (clock 0%nat) in
  if negb (allowed rateCheck) then
    ({| status := 429;
        headers := ("Content-Type", "application/json")
                   :: ("Retry-After",
                       Z_to_dec (ceil_div (rl_resetAt rateCheck - clock 1%nat) 1000))
                   :: getCorsHeaders e;
        (* [retryAfter] is the [Date] of [rl_resetAt]; [JSON.stringify]
           writes it through [toISOString] *)
        resp_body := JObj [("authenticated", JBool false);
                           ("error", JStr "Too many authentication attempts. Please try again later.");
                           ("retryAfter", JStr (date_iso (rl_resetAt rateCheck)))] |}, m')
  else
    let resp :=
      match ar_body req with
      | None => auth_error e 400 "Invalid request"
      | Some b =>
          match get_prop b "password" with
          | None => auth_error e 400 "Invalid request"
          | Some password =>
              if negb (truthy (JWT_SECRET e))
              then auth_error e 500 "Server configuration error: JWT_SECRET not set"
              else if strict_eq password (ADMIN_PASSWORD e) then
                let payload := auth_payload sessionId (clock 1%nat) (clock 2%nat) in
                let token := jwt_sign payload (JWT_SECRET e) in
                successResponse (JObj [("authenticated", JBool true);
                                       ("token", JStr token)]) e
              else auth_error e 401 "Invalid password"
          end
      end in
    (resp, m').

(* ------------------------------------------------------------------ *)
(** ** [jwt-helper.js]: encodings *)

Definition byte_of (c : ascii) : Z := Z.of_nat (nat_of_ascii c).
Definition chr (n : Z) : ascii := ascii_of_nat (Z.to_nat n).

Fixpoint bytes_of_string (s : string) : list Z :=
  match s with EmptyString => [] | String c s' => byte_of c :: bytes_of_string s' end.

(** [String.fromCharCode(...bytes)] *)
Fixpoint string_of_bytes (bs : list Z) : string :=
  match bs with [] => EmptyString | b :: bs' => String (chr b) (string_of_bytes bs') end.

(** [new TextEncoder().encode(s)]: UTF-8 of each code unit. *)
Fixpoint text_encode (s : string) : list Z :=
  match s with
  | EmptyString => []
  | String c s' =>
      let n := byte_of c in
      (if n <? 128 then [n] else [192 + n / 64; 128 + n mod 64]) ++ text_encode s'
  end.

Definition b64_char (n : Z) : ascii :=
  if n <? 26 then chr (65 + n)
  else if n <? 52 then chr (97 + n - 26)
  else if n <? 62 then chr (48 + n - 52)
  else if n =? 62 then "+"%char else "/"%char.

Definition b64_index (c : ascii) : option Z :=
  let n := byte_of c in
  if (65 <=? n) && (n <=? 90) then Some (n - 65)
  else if (97 <=? n) && (n <=? 122) then Some (n - 97 + 26)
  else if (48 <=? n) && (n <=? 57) then Some (n - 48 + 52)
  else if n =? 43 then Some 62
  else if n =? 47 then Some 63
  else None.

(** Base64 of a byte list, with [=] padding. *)
Fixpoint b64_encode (bs : list Z) : string :=
  match bs with
  | [] => EmptyString
  | [a] =>
      String (b64_char (a / 4)) (String (b64_char ((a mod 4) * 16))
        (String "="%char (String "="%char EmptyString)))
  | [a; b] =>
      String (b64_char (a / 4)) (String (b64_char ((a mod 4) * 16 + b / 16))
        (String (b64_char ((b mod 16) * 4)) (String "="%char EmptyString)))
  | a :: b :: c :: rest =>
      String (b64_char (a / 4)) (String (b64_char ((a mod 4) * 16 + b / 16))
        (String (b64_char ((b mod 16) * 4 + c / 64)) (String (b64_char (c mod 64))
          (b64_encode rest))))
  end.

(** [btoa(s)] (every code unit here is below 256). *)
Definition btoa (s : string) : string := b64_encode (bytes_of_string s).

(** Decoding of 6-bit values, four at a time; a trailing group of two or
    three values gives one or two bytes, a group of one is refused. *)
Fixpoint b64_decode_vals (vs : list Z) : option (list Z) :=
  match vs with
  | [] => Some []
  | [_] => None
  | [a; b] => Some [a * 4 + b / 16]
  | [a; b; c] => Some [a * 4 + b / 16; (b mod 16) * 16 + c / 4]
  | a :: b :: c :: d :: rest =>
      let? r := b64_decode_vals rest in
      Some ((a * 4 + b / 16) :: ((b mod 16) * 16 + c / 4) :: ((c mod 4) * 64 + d) :: r)
  end.

Definition ascii_ws (c : ascii) : bool :=
  let n := byte_of c in (n =? 9) || (n =? 10) || (n =? 12) || (n =? 13) || (n =? 32).

Fixpoint filter_str (p : ascii -> bool) (s : string) : string :=
  match s with
  | EmptyString => EmptyString
  | String c s' => if p c then String c (filter_str p s') else filter_str p s'
  end.

Fixpoint str_length (s : string) : nat :=
  match s with EmptyString => O | String _ s' => S (str_length s') end.

Fixpoint map_option {A B} (f : A -> option B) (xs : list A) : option (list B) :=
  match xs with
  | [] => Some []
  | x :: xs' => let? y := f x in let? ys := map_option f xs' in Some (y :: ys)
  end.

(** [atob(s)], the forgiving base64 decode: ASCII white space is dropped;
    with a length that is a multiple of 4, one or two final [=] are
    dropped; then every character must be in the alphabet. *)
Definition atob (s : string) : option string :=
  let cs := rev (bytes_of_string (filter_str (fun c => negb (ascii_ws c)) s)) in
  let cs' :=
    if (length cs mod 4 =? 0)%nat then
      match cs with
      | 61 :: 61 :: r => r
      | 61 :: r => r
      | _ => cs
      end
    else cs in
  let? vals := map_option (fun b => b64_index (chr b)) (rev cs') in
  let? bytes := b64_decode_vals vals in
  Some (string_of_bytes bytes).

Fixpoint replace_char (a b : ascii) (s : string) : string :=
  match s with
  | EmptyString => EmptyString
  | String c s' => String (if Ascii.eqb c a then b else c) (replace_char a b s')
  end.

Fixpoint pad_eq (fuel : nat) (s : string) : string :=
  match fuel with
  | O => s
  | S f => if (str_length s mod 4 =? 0)%nat then s else pad_eq f (s +:+ "=")
  end.

(** [base64UrlEncode(str)] *)
Definition base64UrlEncode (s : string) : string :=
  filter_str (fun c => negb (Ascii.eqb c "="%char))
    (replace_char "/"%char "_"%char (replace_char "+"%char "-"%char (btoa s))).

(** [base64UrlDecode(str)]: at most three [=] are appended. *)
Definition base64UrlDecode (s : string) : option string :=
  atob (pad_eq 3 (replace_char "_"%char "/"%char (replace_char "-"%char "+"%char s))).

(** [str.split('.')] *)
Fixpoint split_dot (s : string) : list string :=
  match s with
  | EmptyString => [EmptyString]
  | String c s' =>
      if Ascii.eqb c "."%char then EmptyString :: split_dot s'
      else match split_dot s' with
           | [] => [String c EmptyString]
           | seg :: segs => String c seg :: segs
           end
  end.

(** [JSON.stringify] of a string: quote, backslash and control characters
    are escaped. *)
Definition hex_digit (n : Z) : ascii := if n <? 10 then chr (48 + n) else chr (87 + n).

Fixpoint json_escape (s : string) : string :=
  match s with
  | EmptyString => EmptyString
  | String c s' =>
      let n := byte_of c in
      let esc :=
        if n =? 34 then String "\"%char (String c EmptyString)
        else if n =? 92 then String "\"%char (String c EmptyString)
        else if n =? 8 then "\b"
        else if n =? 12 then "\f"
        else if n =? 10 then "\n"
        else if n =? 13 then "\r"
        else if n =? 9 then "\t"
        else if n <? 32 then "\u00" +:+ String (hex_digit (n / 16))
                                          (String (hex_digit (n mod 16)) EmptyString)
        else String c EmptyString in
      esc +:+ json_escape s'
  end.

Definition json_quote (s : string) : string := dq +:+ json_escape s +:+ dq.

(** [JSON.stringify(v)] for a value that is not [undefined]; object keys
    with value [undefined] are skipped, array elements [undefined] are
    written [null]. *)
Fixpoint json_stringify (v : jsval) : string :=
  match v with
  | JUndef | JNull => "null"
  | JBool true => "true"
  | JBool false => "false"
  | JNum n => Z_to_dec n
  | JStr s => json_quote s
  | JArr xs => "[" +:+ join "," (map json_stringify xs) +:+ "]"
  | JObj fs =>
      "{" +:+ join "," (omap (fun '(k, x) =>
                                match x with
                                | JUndef => None
                                | _ => Some (json_quote k +:+ ":" +:+ json_stringify x)
                                end) fs)
      +:+ "}"
  end.

(* ------------------------------------------------------------------ *)
(** ** [jwt-helper.js]: [sign] and [verify]

    The platform primitives are parameters: [hmac_sha256 key msg] is the
    MAC [crypto.subtle] computes; [importKey_ok key] says whether
    [crypto.subtle.importKey('raw', key, HMAC)] accepts the key bytes;
    [json_parse] is [JSON.parse] ([None]: it throws); [str_to_number] is
    [Number(s)] ([None]: NaN).  Concrete instances follow below. *)

Section Jwt.

Variable hmac_sha256 : list Z -> list Z -> list Z.
Variable importKey_ok : list Z -> bool.
Variable json_parse : string -> option jsval.
Variable str_to_number : string -> option Z.

(** [x < n] for a number [n]: [x] goes through ToPrimitive and ToNumber;
    NaN compares false. *)
Definition js_lt_num (x : jsval) (n : Z) : bool :=
  match x with
  | JUndef => false
  | JNull => 0 <? n
  | JBool b => (if b then 1 else 0) <? n
  | JNum k => k <? n
  | JStr s => match str_to_number s with Some k => k <? n | None => false end
  | JArr _ | JObj _ =>
      match str_to_number (js_to_string x) with Some k => k <? n | None => false end
  end.

Definition jwt_header : jsval := JObj [("alg", JStr "HS256"); ("typ", JStr "JWT")].

(** [sign(payload, secret)]; [None] when the key import throws. *)
Definition sign (payload : jsval) (secret : string) : option string :=
  let encodedHeader := base64UrlEncode (json_stringify jwt_header) in
  let encodedPayload := base64UrlEncode (json_stringify payload) in
  let message := encodedHeader +:+ "." +:+ encodedPayload in
  if negb (importKey_ok (text_encode secret)) then None else
  let signature := hmac_sha256 (text_encode secret) (text_encode message) in
  Some (message +:+ "." +:+ base64UrlEncode (string_of_bytes signature)).

(** The body of the [try] block of [verify]; [None] is an exception
    (failed key import, bad base64, bad JSON, property read on [null]). *)
Definition verify_try (token secret : string) (nowMs : Z) : option bool :=
  match split_dot token with
  | [encodedHeader; encodedPayload; encodedSignature] =>
      let message := encodedHeader +:+ "." +:+ encodedPayload in
      if negb (importKey_ok (text_encode secret)) then None else
      let? sigStr := base64UrlDecode encodedSignature in
      let signatureBytes := bytes_of_string sigStr in
      let isValid :=
        bool_decide (hmac_sha256 (text_encode secret) (text_encode message)
                     = signatureBytes) in
      if negb isValid then Some false else
      let? payloadStr := base64UrlDecode encodedPayload in
      let? payload := json_parse payloadStr in
      let? exp := get_prop payload "exp" in
      if truthy exp && js_lt_num exp (nowMs / 1000) then Some false
      else Some true
  | _ => Some false
  end.

(** [verify(token, secret)]: the [catch] turns every exception into
    [false]. *)
Definition verify (token secret : string) (nowMs : Z) : bool :=
  match verify_try token secret nowMs with Some b => b | None => false end.

End Jwt.

(* ------------------------------------------------------------------ *)
(** ** Concrete platform primitives

    HMAC-SHA256 (FIPS 180-4, RFC 2104) on byte lists, used to evaluate
    [sign] and [verify] on concrete tokens. *)

Module Sha256.

Definition mask32 (x : Z) : Z := Z.land x 4294967295.
Definition add32 (x y : Z) : Z := mask32 (x + y).
Definition rotr (n x : Z) : Z := Z.lor (Z.shiftr x n) (mask32 (Z.shiftl x (32 - n))).
Definition xor3 (a b c : Z) : Z := Z.lxor (Z.lxor a b) c.

Definition big_sigma0 (x : Z) : Z := xor3 (rotr 2 x) (rotr 13 x) (rotr 22 x).
Definition big_sigma1 (x : Z) : Z := xor3 (rotr 6 x) (rotr 11 x) (rotr 25 x).
Definition small_sigma0 (x : Z) : Z := xor3 (rotr 7 x) (rotr 18 x) (Z.shiftr x 3).
Definition small_sigma1 (x : Z) : Z := xor3 (rotr 17 x) (rotr 19 x) (Z.shiftr x 10).
Definition choose (x y z : Z) : Z := Z.lxor (Z.land x y) (Z.land (Z.lxor x 4294967295) z).
Definition majority (x y z : Z) : Z := xor3 (Z.land x y) (Z.land x z) (Z.land y z).

(** Round constants (cube roots of the first 64 primes), in decimal. *)
Definition round_k : list Z := [
   1116352408; 1899447441; 3049323471; 3921009573; 961987163; 1508970993;
   2453635748; 2870763221; 3624381080; 310598401; 607225278; 1426881987;
   1925078388; 2162078206; 2614888103; 3248222580; 3835390401; 4022224774;
   264347078; 604807628; 770255983; 1249150122; 1555081692; 1996064986;
   2554220882; 2821834349; 2952996808; 3210313671; 3336571891; 3584528711;
   113926993; 338241895; 666307205; 773529912; 1294757372; 1396182291;
   1695183700; 1986661051; 2177026350; 2456956037; 2730485921; 2820302411;
   3259730800; 3345764771; 3516065817; 3600352804; 4094571909; 275423344;
   430227734; 506948616; 659060556; 883997877; 958139571; 1322822218;
   1537002063; 1747873779; 1955562222; 2024104815; 2227730452; 2361852424;
   2428436474; 2756734187; 3204031479; 3329325298].

(** Initial hash value (square roots of the first 8 primes), in decimal. *)
Definition iv : list Z := [
   1779033703; 3144134277; 1013904242; 2773480762;
   1359893119; 2600822924; 528734635; 1541459225].

Definition be_bytes (n : nat) (x : Z) : list Z :=
  map (fun i => Z.land (Z.shiftr x (8 * Z.of_nat (n - 1 - i))) 255) (seq 0 n).

(** Message padding: [0x80], zeros, then the 64-bit bit length. *)
Definition pad (msg : list Z) : list Z :=
  let len := Z.of_nat (length msg) in
  msg ++ [128] ++ replicate (Z.to_nat ((55 - len) mod 64)) 0 ++ be_bytes 8 (8 * len).

Fixpoint words (bs : list Z) : list Z :=
  match bs with
  | a :: b :: c :: d :: rest =>
      (a * 16777216 + b * 65536 + c * 256 + d) :: words rest
  | _ => []
  end.

(** Message schedule: 16 words extended to 64, kept in reverse order. *)
Fixpoint extend (n : nat) (rw : list Z) : list Z :=
  match n with
  | O => rw
  | S n' =>
      let w t := default 0 (rw !! t) in
      let next := add32 (add32 (small_sigma1 (w 1%nat)) (w 6%nat))
                        (add32 (small_sigma0 (w 14%nat)) (w 15%nat)) in
      extend n' (next :: rw)
  end.

Definition schedule (block : list Z) : list Z := rev (extend 48 (rev (words block))).

Definition round (st : list Z) (kw : Z * Z) : list Z :=
  match st with
  | [a; b; c; d; e; f; g; h] =>
      let t1 := add32 (add32 (add32 h (big_sigma1 e)) (add32 (choose e f g) kw.1)) kw.2 in
      let t2 := add32 (big_sigma0 a) (majority a b c) in
      [add32 t1 t2; a; b; c; add32 d t1; e; f; g]
  | _ => st
  end.

Definition compress (hv : list Z) (block : list Z) : list Z :=
  zip_with add32 hv (foldl round hv (zip round_k (schedule block))).

Fixpoint blocks (fuel : nat) (bs : list Z) : list (list Z) :=
  match fuel with
  | O => []
  | S f => match bs with [] => [] | _ => take 64 bs :: blocks f (drop 64 bs) end
  end.

Definition digest (msg : list Z) : list Z :=
  let p := pad msg in
  mbind (be_bytes 4) (foldl compress iv (blocks (length p) p)).

Definition hmac (key msg : list Z) : list Z :=
  let k0 := if (64 <? length key)%nat then digest key else key in
  let k := k0 ++ replicate (64 - length k0) 0 in
  digest (map (Z.lxor 92) k ++ digest (map (Z.lxor 54) k ++ msg)).

End Sha256.

(** A fragment of [JSON.parse]: literals, integers, strings with the
    two-character escapes, arrays and objects (a repeated key keeps its
    first position and its last value).  Wherever it returns [Some] it
    agrees with [JSON.parse]; it returns [None] on malformed text and also
    on the forms it leaves out (fractions, exponents, [\u] escapes). *)
Module JsonFragment.

Fixpoint skip_ws (s : string) : string :=
  match s with
  | String c s' =>
      let n := byte_of c in
      if (n =? 32) || (n =? 9) || (n =? 10) || (n =? 13) then skip_ws s' else s
  | EmptyString => s
  end.

Definition is_digit (c : ascii) : bool := (48 <=? byte_of c) && (byte_of c <=? 57).

Fixpoint strip_prefix (p s : string) : option string :=
  match p, s with
  | EmptyString, _ => Some s
  | String a p', String b s' => if Ascii.eqb a b then strip_prefix p' s' else None
  | _, _ => None
  end.

Fixpoint digits (s : string) (acc : Z) : Z * string :=
  match s with
  | String c s' => if is_digit c then digits s' (acc * 10 + (byte_of c - 48)) else (acc, s)
  | EmptyString => (acc, s)
  end.

(** An unsigned integer: [0] or a nonzero digit followed by digits; a
    following [.], [e] or [E] is outside the fragment. *)
Definition unsigned (s : string) : option (Z * string) :=
  match s with
  | String c s' =>
      if Ascii.eqb c "0"%char then
        match s' with
        | String d _ => if is_digit d then None else Some (0, s')
        | EmptyString => Some (0, s')
        end
      else if is_digit c then Some (digits s' (byte_of c - 48)) else None
  | EmptyString => None
  end.

Definition number (s : string) : option (Z * string) :=
  let? (sign, r) := (match s with
                     | String c s' => if Ascii.eqb c "-"%char then Some (-1, s') else Some (1, s)
                     | EmptyString => None
                     end) in
  let? (k, r') := unsigned r in
  match r' with
  | String c _ =>
      if Ascii.eqb c "."%char || Ascii.eqb c "e"%char || Ascii.eqb c "E"%char
      then None else Some (sign * k, r')
  | EmptyString => Some (sign * k, r')
  end.

Fixpoint str_body (s : string) : option (string * string) :=
  match s with
  | EmptyString => None
  | String c s' =>
      let n := byte_of c in
      if n =? 34 then Some (EmptyString, s')
      else if n <? 32 then None
      else if n =? 92 then
        match s' with
        | String e s'' =>
            let? ch := (let m := byte_of e in
                        if (m =? 34) || (m =? 92) || (m =? 47) then Some e
                        else if m =? 98 then Some (chr 8)
                        else if m =? 102 then Some (chr 12)
                        else if m =? 110 then Some (chr 10)
                        else if m =? 114 then Some (chr 13)
                        else if m =? 116 then Some (chr 9)
                        else None) in
            let? (t, r) := str_body s'' in Some (String ch t, r)
        | EmptyString => None
        end
      else let? (t, r) := str_body s' in Some (String c t, r)
  end.

Definition quoted (s : string) : option (string * string) :=
  match s with
  | String c s' => if byte_of c =? 34 then str_body s' else None
  | EmptyString => None
  end.

Definition first_is (c : ascii) (s : string) : option string :=
  match s with
  | String d s' => if Ascii.eqb c d then Some s' else None
  | EmptyString => None
  end.

Fixpoint value (fuel : nat) (s0 : string) : option (jsval * string) :=
  match fuel with
  | O => None
  | S f =>
      let s := skip_ws s0 in
      match strip_prefix "null" s, strip_prefix "true" s, strip_prefix "false" s with
      | Some r, _, _ => Some (JNull, r)
      | _, Some r, _ => Some (JBool true, r)
      | _, _, Some r => Some (JBool false, r)
      | None, None, None =>
      match first_is "["%char s, first_is "{"%char s, quoted s with
      | Some r, _, _ =>
          match first_is "]"%char (skip_ws r) with
          | Some r' => Some (JArr [], r')
          | None =>
              (fix elems (g : nat) (acc : list jsval) (r : string) : option (jsval * string) :=
                 match g with
                 | O => None
                 | S g' =>
                     let? (v, r1) := value f r in
                     let r2 := skip_ws r1 in
                     match first_is ","%char r2, first_is "]"%char r2 with
                     | Some r3, _ => elems g' (acc ++ [v]) r3
                     | None, Some r3 => Some (JArr (acc ++ [v]), r3)
                     | None, None => None
                     end
                 end) f [] r
          end
      | None, Some r, _ =>
          match first_is "}"%char (skip_ws r) with
          | Some r' => Some (JObj [], r')
          | None =>
              (fix members (g : nat) (acc : list (string * jsval)) (r : string)
                 : option (jsval * string) :=
                 match g with
                 | O => None
                 | S g' =>
                     let? (k, r1) := quoted (skip_ws r) in
                     let? r2 := first_is ":"%char (skip_ws r1) in
                     let? (v, r3) := value f r2 in
                     let r4 := skip_ws r3 in
                     match first_is ","%char r4, first_is "}"%char r4 with
                     | Some r5, _ => members g' (assoc_set k v acc) r5
                     | None, Some r5 => Some (JObj (assoc_set k v acc), r5)
                     | None, None => None
                     end
                 end) f [] r
          end
      | None, None, Some (t, r) => Some (JStr t, r)
      | None, None, None => let? (k, r) := number s in Some (JNum k, r)
      end
      end
  end.

Definition parse (s : string) : option jsval :=
  let? (v, r) := value (S (str_length s)) s in
  match skip_ws r with EmptyString => Some v | _ => None end.

(** [Number(s)] on decimal integer strings (surrounding white space
    allowed, empty string is 0); [None] (NaN) elsewhere in the fragment. *)
Definition to_number (s : string) : option Z :=
  let t := js_trim s in
  if String.eqb t "" then Some 0 else
  let? (k, r) := number t in
  match r with EmptyString => Some k | _ => None end.

End JsonFragment.

(** WebCrypto refuses to import an empty raw HMAC key (DataError). *)
Definition importKey_nonempty (key : list Z) : bool :=
  match key with [] => false | _ => true end.

Definition sign_c := sign Sha256.hmac importKey_nonempty.
Definition verify_c :=
  verify Sha256.hmac importKey_nonempty JsonFragment.parse JsonFragment.to_number.

(* ------------------------------------------------------------------ *)
(** ** [_shared.js]: [generateUUID]

    [rand i] is [(Math.random() * 16) | 0] at the [i]-th call of the
    [replace] callback: one call per [x] or [y] of the template, from left
    to right. *)

Definition uuid_template : string := "xxxxxxxx-xxxx-4xxx-yxxx-xxxxxxxxxxxx".

(** The [replace(/[xy]/g, ...)] pass; [v.toString(16)] is [hex_digit v]. *)
Fixpoint uuid_fill (rand : nat -> Z) (i : nat) (t : string) : string :=
  match t with
  | EmptyString => EmptyString
  | String c t' =>
      if Ascii.eqb c "x"%char then String (hex_digit (rand i)) (uuid_fill rand (S i) t')
      else if Ascii.eqb c "y"%char
      then String (hex_digit (Z.lor (Z.land (rand i) 3) 8)) (uuid_fill rand (S i) t')
      else String c (uuid_fill rand i t')
  end.

Definition generateUUID (rand : nat -> Z) : string := uuid_fill rand 0 uuid_template.

(* ------------------------------------------------------------------ *)
(** ** [_shared.js]: [verifyAuth]; [jwt-helper.js]: [decode] *)

Section JwtUse.

Variable hmac_sha256 : list Z -> list Z -> list Z.
Variable importKey_ok : list Z -> bool.
Variable json_parse : string -> option jsval.
Variable str_to_number : string -> option Z.

(** The string [new TextEncoder().encode(x)] encodes: [undefined] is the
    default argument [''], anything else goes through [String(x)]. *)
Definition text_arg (v : jsval) : string :=
  match v with JUndef => EmptyString | _ => js_to_string v end.

(** [verifyAuth(request, env)]; [authHeader] is
    [request.headers.get('Authorization')] ([None]: [null]). *)
Definition verifyAuth (authHeader : option string) (e : env) (nowMs : Z) : bool :=
  match authHeader with
  | None => false
  | Some h =>
      if String.eqb h "" then false
      else if negb (String.prefix "Bearer " h) then false
      else
        let token := String.substring 7 (String.length h - 7) h in
        verify hmac_sha256 importKey_ok json_parse str_to_number token
          (text_arg (JWT_SECRET e)) nowMs
  end.

(** [decode(token)]: [Some (header, payload)], or [None] for [null]
    (wrong number of segments, or an exception in the [try] block).  The
    signature is not looked at. *)
Definition decode (token : string) : option (jsval * jsval) :=
  match split_dot token with
  | [h; p; _] =>
      let? payloadStr := base64UrlDecode p in
      let? payload := json_parse payloadStr in
      let? headerStr := base64UrlDecode h in
      let? header := json_parse headerStr in
      Some (header, payload)
  | _ => None
  end.

End JwtUse.

(* ------------------------------------------------------------------ *)
(** ** Reading of the spec used in the statements *)

Definition prop (v : jsval) (k : string) : jsval := default JUndef (get_prop v k).

Definition is_obj (v : jsval) : Prop := match v with JObj _ => True | _ => False end.

(** [validateRestaurantData] throws when the record is [null]/[undefined]
    or its name is truthy but not a string. *)
Definition validation_throws (r : jsval) : bool :=
  match get_prop r "name" with
  | None => true
  | Some (JStr _) => false
  | Some n => truthy n
  end.

Definition nonempty_seq (v : jsval) : bool :=
  match v with JArr (_ :: _) => true | _ => false end.

Definition blank_name (n : jsval) : bool :=
  match n with JStr s => String.eqb (js_trim s) "" | _ => negb (truthy n) end.

(** The list of the messages of the checks a record fails, in the order
    of the spec's list of checks. *)
Definition applicable_errors (r : jsval) : list string :=
  let st := prop r "serviceTypes" in
  (if blank_name (prop r "name") then ["Restaurant name is required"] else [])
  ++ (if nonempty_seq (prop r "foodTypes") then []
      else ["At least one food type is required"])
  ++ (if nonempty_seq st then [] else ["At least one service type is required"])
  ++ (match st with
      | JArr sts =>
          match sv_invalidTypes (validateServiceTypes sts) with
          | [] => []
          | bad => ["Invalid service types: " +:+ array_join ", " bad]
          end
      | _ => []
      end)
  ++ (if truthy (prop r "profiles") && negb (is_array (prop r "profiles"))
      then ["Profiles must be an array"] else [])
  ++ (if truthy (prop r "dietaryRestrictions") && negb (is_array (prop r "dietaryRestrictions"))
      then ["Dietary restrictions must be an array"] else []).

(** Strings equal to [p]: the entries the cascade drops. *)
Definition is_str (p : string) (x : jsval) : bool :=
  match x with JStr s => String.eqb s p | _ => false end.

(** A restaurant after the cascade of the deletion of profile [p]: its
    [profiles] sequence without [p], every other field unchanged. *)
Definition restaurant_cleaned (p : string) (r r' : jsval) : Prop :=
  (forall k, k <> "profiles" -> prop r' k = prop r k) /\
  match prop r "profiles" with
  | JArr xs => prop r' "profiles" = JArr (List.filter (fun x => negb (is_str p x)) xs)
  | v => prop r' "profiles" = v
  end.

(* ------------------------------------------------------------------ *)
(** ** Auxiliary functions of the proofs *)

(** The 6-bit values [b64_encode] writes, without the padding. *)
Fixpoint sextets (bs : list Z) : list Z :=
  match bs with
  | [] => []
  | [a] => [a / 4; (a mod 4) * 16]
  | [a; b] => [a / 4; (a mod 4) * 16 + b / 16; (b mod 16) * 4]
  | a :: b :: c :: rest =>
      a / 4 :: ((a mod 4) * 16 + b / 16) :: ((b mod 16) * 4 + c / 64) :: (c mod 64)
        :: sextets rest
  end.

(** The number of [=] [b64_encode] appends. *)
Fixpoint pad_count (bs : list Z) : nat :=
  match bs with
  | [] => 0
  | [_] => 2
  | [_; _] => 1
  | _ :: _ :: _ :: rest => pad_count rest
  end.

(** The base64url alphabet: [A-Z], [a-z], [0-9], [-] and [_]. *)
Definition b64url_char (c : ascii) : bool :=
  let n := byte_of c in
  ((65 <=? n) && (n <=? 90)) || ((97 <=? n) && (n <=? 122))
  || ((48 <=? n) && (n <=? 57)) || (n =? 45) || (n =? 95).

Definition is_byte (b : Z) : Prop := 0 <= b < 256.

(** Lower-case hexadecimal digits, and the variant digits [8], [9], [a], [b]. *)
Definition is_lower_hex (c : ascii) : bool :=
  let n := byte_of c in ((48 <=? n) && (n <=? 57)) || ((97 <=? n) && (n <=? 102)).

Definition is_variant_digit (c : ascii) : bool :=
  let n := byte_of c in (n =? 56) || (n =? 57) || (n =? 97) || (n =? 98).

(** The layout of a version-4 UUID: 36 characters, [-] at 8, 13, 18 and
    23, [4] at 14, a variant digit at 19, lower-case hex elsewhere. *)
Definition uuid_v4_layout (s : string) : bool :=
  (String.length s =? 36)%nat &&
  forallb (fun i =>
             match String.get i s with
             | None => false
             | Some c =>
                 if existsb (Nat.eqb i) [8; 13; 18; 23]%nat then Ascii.eqb c "-"%char
                 else if (i =? 14)%nat then Ascii.eqb c "4"%char
                 else if (i =? 19)%nat then is_variant_digit c
                 else is_lower_hex c
             end) (seq 0 36).

(* ------------------------------------------------------------------ *)
(** ** Sequences of requests

    The rate-limit map is process-wide: successive calls thread it. *)

(** Successive [checkRateLimit] calls from one client at times [ts];
    the [allowed] flags and the final map. *)
Fixpoint rl_calls (m : gmap string rl_entry) (ip : option string)
    (maxRequests windowMs : Z) (ts : list Z) : list bool * gmap string rl_entry :=
  match ts with
  | [] => ([], m)
  | t :: ts' =>
      let '(r, m1) := checkRateLimit m ip maxRequests windowMs t in
      let '(bs, m2) := rl_calls m1 ip maxRequests windowMs ts' in
      (allowed r :: bs, m2)
  end.

(** Successive [POST /api/auth] requests, each with its clock and its
    session id. *)
Fixpoint auth_seq (jwt_sign : jsval -> jsval -> string) (e : env)
    (m : gmap string rl_entry) (reqs : list (auth_request * (nat -> Z) * string))
    : list response * gmap string rl_entry :=
  match reqs with
  | [] => ([], m)
  | (req, clock, sid) :: reqs' =>
      let '(resp, m1) := auth_onRequestPost jwt_sign e m req clock sid in
      let '(rs, m2) := auth_seq jwt_sign e m1 reqs' in
      (resp :: rs, m2)
  end.

(** Concrete inputs of the examples below. *)

Definition rl_demo_env : env :=
  {| ALLOWED_ORIGIN := JUndef; ADMIN_PASSWORD := JStr "pw"; JWT_SECRET := JStr "s" |}.

Definition rl_demo_req : auth_request :=
  {| ar_ip := Some "10.0.0.1"; ar_body := Some (JObj [("password", JStr "guess")]) |}.

(** Tokens issued by [sign_c] with the secret ["secret"]: payloads
    [{"exp":0}], [null] and [{"iat":5}]. *)
Definition token_exp0 : string :=
  "eyJhbGciOiJIUzI1NiIsInR5cCI6IkpXVCJ9.eyJleHAiOjB9.m2OKoK5-Fnbbg4inMrsAQKsehq2wpQYim8695uLdogk".
Definition token_null : string :=
  "eyJhbGciOiJIUzI1NiIsInR5cCI6IkpXVCJ9.bnVsbA.7DWrkJHEM03NP-M-9zlpZJ3Ud49InV9BpM_GlfnVpfM".
Definition token_iat5 : string :=
  "eyJhbGciOiJIUzI1NiIsInR5cCI6IkpXVCJ9.eyJpYXQiOjV9.PeWZJ9tBvjF5RKbCx6mJdx0UE2ezBqrFoHYz6JY2qW4".

Definition empty_restaurant : jsval :=
  JObj [("name", JStr ""); ("foodTypes", JArr []); ("serviceTypes", JArr [])].
Definition numeric_name_restaurant : jsval :=
  JObj [("name", JNum 5); ("foodTypes", JArr []); ("serviceTypes", JArr [])].

(** A document written before string ids: the restaurant id is the
    number [5]; the update payload carries the id as the string ["5"]. *)
Definition legacy_restaurant : jsval :=
  JObj [("id", JNum 5); ("name", JStr "Old"); ("foodTypes", JArr [JStr "Pizza"]);
        ("serviceTypes", JArr [JStr "takeout"])].
Definition legacy_store : store :=
  {| st_doc := JObj [("restaurants", JArr [legacy_restaurant])]; st_sha := 7;
     st_online := true |}.
Definition legacy_update : jsval :=
  JObj [("id", JStr "5"); ("name", JStr "New"); ("foodTypes", JArr [JStr "Pizza"]);
        ("serviceTypes", JArr [JStr "takeout"])].

(** A document with profiles [all] and [kids], and two restaurants that
    reference [kids]. *)
Definition cascade_profiles : list jsval :=
  [JObj [("id", JStr "all"); ("name", JStr "All Restaurants")];
   JObj [("id", JStr "kids"); ("name", JStr "Kids")]].
Definition cascade_restaurants : list jsval :=
  [JObj [("id", JNum 1); ("name", JStr "A"); ("profiles", JArr [JStr "kids"; JStr "all"])];
   JObj [("id", JStr "r2"); ("name", JStr "B"); ("profiles", JArr [JStr "kids"])]].
Definition cascade_fields : list (string * jsval) :=
  [("profiles", JArr cascade_profiles); ("restaurants", JArr cascade_restaurants)].
Definition cascade_store : store :=
  {| st_doc := JObj cascade_fields; st_sha := 3; st_online := true |}.

Definition profile_all_body : jsval := JObj [("id", JStr "all"); ("name", JStr "Everything")].
Definition profile_bad_id_body : jsval := JObj [("id", JStr "Bad Id"); ("name", JStr "X")].

(** A login with the right password whose [iat] and [exp] reads of
    [Date.now()] fall on both sides of a second boundary. *)
Definition auth_login_req : auth_request :=
  {| ar_ip := Some "10.0.0.2"; ar_body := Some (JObj [("password", JStr "pw")]) |}.

(** Concrete inputs of the examples of the further properties. *)

Definition default_profile : jsval :=
  JObj [("id", JStr "all"); ("name", JStr "All Restaurants")].

Definition session_payload : jsval := JObj [("sub", JStr "admin"); ("exp", JNum 2000000000)].

Definition session_token : string :=
  match sign_c session_payload "s" with Some t => t | None => EmptyString end.

Definition no_secret_env : env :=
  {| ALLOWED_ORIGIN := JUndef; ADMIN_PASSWORD := JStr "pw"; JWT_SECRET := JUndef |}.

Definition thai_update : jsval :=
  JObj [("id", JStr "r2"); ("name", JStr "C"); ("foodTypes", JArr [JStr "Thai"]);
        ("serviceTypes", JArr [JStr "delivery"])].

Definition new_restaurant : jsval :=
  JObj [("name", JStr "D"); ("foodTypes", JArr [JStr "Thai"]);
        ("serviceTypes", JArr [JStr "takeout"])].

Definition vegan_profile : jsval := JObj [("id", JStr "vegan"); ("name", JStr "Vegan")].


Definition demo_rl_store : gmap string rl_entry :=
  {[ "10.0.0.1" := {| count := 3; resetAt := 100 |} ]}.

Definition open_env : env :=
  {| ALLOWED_ORIGIN := JUndef; ADMIN_PASSWORD := JUndef; JWT_SECRET := JStr "s" |}.

Definition empty_login_req : auth_request :=
  {| ar_ip := Some "10.0.0.3"; ar_body := Some (JObj []) |}.

Fixpoint bin_key (p : positive) : string :=
  match p with
  | xH => "1"
  | xO q => String "0"%char (bin_key q)
  | xI q => String "1"%char (bin_key q)
  end.

Definition crowded_rl_store : gmap string rl_entry :=
  fst (Pos.iter (fun '(m, p) => (<[bin_key p := {| count := 1; resetAt := 0 |}]> m, Pos.succ p))
         (∅, 1%positive) 10001%positive).

(* ================================================================== *)
(** * Properties *)

(** *** Validation *)

Lemma get_prop_some (r : jsval) (k : string) :
  r <> JUndef -> r <> JNull -> get_prop r k = Some (prop r k).
Proof. intros HU HN; unfold prop; destruct r; simpl; congruence || reflexivity. Qed.

Lemma nullish_cases (r : jsval) :
  r = JUndef \/ r = JNull \/ (r <> JUndef /\ r <> JNull).
Proof. destruct r; auto; right; right; split; discriminate. Qed.

Lemma name_is_blank_none (n : jsval) :
  name_is_blank n = None <-> (truthy n = true /\ forall s, n <> JStr s).
Proof.
  unfold name_is_blank; split.
  - destruct n as [| | b | k | s | xs | fs]; simpl; try discriminate;
      [destruct b | destruct (k =? 0) | destruct (String.eqb s "") | |];
      simpl; try discriminate; intros _; split; try reflexivity; intros ? ?; discriminate.
  - intros [Ht Hs]. rewrite Ht. simpl.
    destruct n; try reflexivity. exfalso; eapply Hs; reflexivity.
Qed.

Lemma name_is_blank_some (n : jsval) (b : bool) :
  name_is_blank n = Some b -> b = blank_name n.
Proof.
  unfold name_is_blank, blank_name.
  destruct n as [| | c | k | s | xs | fs]; simpl; try congruence.
  - destruct c; simpl; congruence.
  - destruct (k =? 0); simpl; congruence.
  - destruct (String.eqb s "") eqn:E; simpl; intros H; injection H as <-; [|reflexivity].
    apply String.eqb_eq in E; subst s; reflexivity.
Qed.

Lemma stage_nonempty (L : list string) (v : jsval) (m : string) :
  match v with JArr (_ :: _) => L | _ => L ++ [m] end
  = L ++ (if nonempty_seq v then [] else [m]).
Proof. destruct v as [| | | | | [|? ?] |]; simpl; rewrite ?app_nil_r; reflexivity. Qed.

Lemma stage_if (L : list string) (c : bool) (m : string) :
  (if c then L ++ [m] else L) = L ++ (if c then [m] else []).
Proof. destruct c; rewrite ?app_nil_r; reflexivity. Qed.

Lemma stage_service (L : list string) (v : jsval) :
  match v with
  | JArr sts =>
      let sv := validateServiceTypes sts in
      if negb (sv_valid sv)
      then L ++ ["Invalid service types: " +:+ array_join ", " (sv_invalidTypes sv)]
      else L
  | _ => L
  end
  = L ++ match v with
         | JArr sts =>
             match sv_invalidTypes (validateServiceTypes sts) with
             | [] => []
             | bad => ["Invalid service types: " +:+ array_join ", " bad]
             end
         | _ => []
         end.
Proof.
  destruct v; simpl; rewrite ?app_nil_r; try reflexivity.
  unfold validateServiceTypes; simpl.
  destruct (List.filter _ _); simpl; rewrite ?app_nil_r; reflexivity.
Qed.

Lemma validate_none_iff (r : jsval) :
  validateRestaurantData r = None <-> validation_throws r = true.
Proof.
  destruct (nullish_cases r) as [->|[->|[HU HN]]]; [simpl; split; auto..|].
  unfold validateRestaurantData, validation_throws.
  rewrite !(get_prop_some r) by assumption.
  destruct (name_is_blank (prop r "name")) eqn:E.
  - cbv beta iota zeta. split; [discriminate|].
    intros Ht. exfalso. revert E Ht. generalize (prop r "name"). intros n E Ht.
    assert (name_is_blank n = None) as E'.
    { apply name_is_blank_none.
      destruct n; try discriminate Ht; split; try exact Ht; intros ? ?; discriminate. }
    congruence.
  - cbv beta iota. split; [intros _|reflexivity].
    apply name_is_blank_none in E as [Ht Hs].
    destruct (prop r "name"); try assumption. exfalso; exact (Hs s eq_refl).
Qed.

Lemma validate_some (r : jsval) (res : validation) :
  validateRestaurantData r = Some res ->
  errors res = applicable_errors r /\ valid res = bool_decide (errors res = []).
Proof.
  destruct (nullish_cases r) as [->|[->|[HU HN]]]; [simpl; discriminate..|].
  unfold validateRestaurantData.
  rewrite !(get_prop_some r) by assumption.
  destruct (name_is_blank (prop r "name")) eqn:E; [|discriminate].
  apply name_is_blank_some in E; subst b.
  cbv beta iota zeta. intros H; injection H as <-. simpl.
  rewrite stage_service, !stage_nonempty, !stage_if.
  unfold applicable_errors.
  split.
  - destruct (blank_name (prop r "name")); simpl; rewrite <- ?app_assoc; reflexivity.
  - match goal with |- context [length ?l] => destruct l; reflexivity end.
Qed.

(** *** Rate limiting *)

Lemma cleanup_lookup_live (m : gmap string rl_entry) (now : Z) (k : string) (en : rl_entry) :
  m !! k = Some en -> now <= resetAt en -> cleanup now m !! k = Some en.
Proof.
  intros Hk Hle. unfold cleanup. case_match; [|exact Hk].
  apply map_lookup_filter_Some. split; [exact Hk|]. simpl; lia.
Qed.

Lemma cleanup_lookup_none (m : gmap string rl_entry) (now : Z) (k : string) :
  m !! k = None -> cleanup now m !! k = None.
Proof.
  intros Hk. unfold cleanup. case_match; [|exact Hk].
  apply map_lookup_filter_None. left; exact Hk.
Qed.

Lemma cleanup_lookup_dead (m : gmap string rl_entry) (now : Z) (k : string) (en : rl_entry) :
  m !! k = Some en -> now > resetAt en ->
  cleanup now m !! k = None \/ cleanup now m !! k = Some en.
Proof.
  intros Hk Hgt. unfold cleanup. case_match; [|right; exact Hk].
  left. apply map_lookup_filter_None. right. intros x Hx.
  rewrite Hk in Hx. injection Hx as <-. simpl. lia.
Qed.

Lemma checkRateLimit_fresh (m : gmap string rl_entry) (ip : option string)
    (mx w now : Z) :
  (m !! client_key ip = None \/
   exists en, m !! client_key ip = Some en /\ now > resetAt en) ->
  checkRateLimit m ip mx w now =
    ({| allowed := true; remaining := mx - 1; rl_resetAt := now + w |},
     <[client_key ip := {| count := 1; resetAt := now + w |}]> (cleanup now m)).
Proof.
  intros H. unfold checkRateLimit.
  destruct H as [H | [en [H Hgt]]].
  - rewrite (cleanup_lookup_none _ _ _ H). reflexivity.
  - destruct (cleanup_lookup_dead _ now _ _ H Hgt) as [E | E]; rewrite E; [reflexivity|].
    replace (now >? resetAt en) with true by (symmetry; apply Z.gtb_lt; lia).
    reflexivity.
Qed.

Lemma checkRateLimit_live (m : gmap string rl_entry) (ip : option string)
    (mx w now : Z) (en : rl_entry) :
  m !! client_key ip = Some en -> now <= resetAt en ->
  checkRateLimit m ip mx w now =
    ({| allowed := (count en + 1 <=? mx);
        remaining := if count en + 1 <=? mx then mx - (count en + 1) else 0;
        rl_resetAt := resetAt en |},
     <[client_key ip := {| count := count en + 1; resetAt := resetAt en |}]>
       (cleanup now m)).
Proof.
  intros H Hle. unfold checkRateLimit.
  rewrite (cleanup_lookup_live _ _ _ _ H Hle).
  replace (now >? resetAt en) with false by (rewrite Z.gtb_ltb; symmetry; apply Z.ltb_ge; lia).
  simpl. destruct (count en + 1 <=? mx) eqn:E.
  - apply Z.leb_le in E. replace (count en + 1 >? mx) with false
      by (rewrite Z.gtb_ltb; symmetry; apply Z.ltb_ge; lia). reflexivity.
  - apply Z.leb_gt in E. replace (count en + 1 >? mx) with true
      by (symmetry; apply Z.gtb_lt; lia). reflexivity.
Qed.

Lemma rl_calls_window (ts : list Z) (m : gmap string rl_entry) (ip : option string)
    (mx w : Z) (en : rl_entry) :
  m !! client_key ip = Some en -> Forall (fun t => t <= resetAt en) ts ->
  fst (rl_calls m ip mx w ts)
    = map (fun i => count en + Z.of_nat i <=? mx) (seq 1 (length ts)) /\
  snd (rl_calls m ip mx w ts) !! client_key ip
    = Some {| count := count en + Z.of_nat (length ts); resetAt := resetAt en |}.
Proof.
  revert m en. induction ts as [|t ts IH]; intros m en Hm Hts.
  - simpl. rewrite Z.add_0_r. destruct en; split; [reflexivity | exact Hm].
  - apply Forall_cons in Hts as [Ht Hts].
    simpl rl_calls. rewrite (checkRateLimit_live _ _ mx w _ _ Hm Ht).
    set (en' := {| count := count en + 1; resetAt := resetAt en |}).
    assert (Hm' : (<[client_key ip := en']> (cleanup t m)) !! client_key ip = Some en')
      by apply lookup_insert_eq.
    destruct (IH _ en' Hm' Hts) as [IH1 IH2].
    destruct (rl_calls _ ip mx w ts) as [bs m2] eqn:E. simpl in IH1, IH2 |- *.
    split.
    + simpl. f_equal. rewrite IH1, <- (seq_shift _ 1), map_map.
      apply map_ext. intros i. subst en'; simpl.
      apply (f_equal (fun z => z <=? mx)). lia.
    + rewrite IH2. subst en'; simpl.
      apply (f_equal (fun z => Some {| count := z; resetAt := resetAt en |})). lia.
Qed.

Lemma rl_six_calls (m : gmap string rl_entry) (ip : option string) (t1 : Z) (ts : list Z) :
  m !! client_key ip = None -> length ts = 5%nat ->
  Forall (fun t => t <= t1 + 60000) ts ->
  fst (rl_calls m ip 5 60000 (t1 :: ts)) = [true; true; true; true; true; false].
Proof.
  intros Hm Hlen Hts. simpl rl_calls.
  rewrite (checkRateLimit_fresh m ip 5 60000 t1 (or_introl Hm)).
  set (en := {| count := 1; resetAt := t1 + 60000 |}).
  assert (Hm' : (<[client_key ip := en]> (cleanup t1 m)) !! client_key ip = Some en)
    by apply lookup_insert_eq.
  destruct (rl_calls_window ts _ ip 5 60000 en Hm' Hts) as [H1 _].
  destruct (rl_calls _ ip 5 60000 ts) as [bs m2]. simpl in H1 |- *.
  rewrite H1, Hlen. reflexivity.
Qed.

Lemma auth_step (jwt_sign : jsval -> jsval -> string) (e : env)
    (m : gmap string rl_entry) (req : auth_request) (clock : nat -> Z) (sid : string) :
  let rc := checkRateLimit m (ar_ip req) 5 60000 (clock 0%nat) in
  snd (auth_onRequestPost jwt_sign e m req clock sid) = snd rc /\
  (status (fst (auth_onRequestPost jwt_sign e m req clock sid)) = 429
     <-> allowed (fst rc) = false) /\
  (allowed (fst rc) = false ->
     exists v, In ("Retry-After", v) (headers (fst (auth_onRequestPost jwt_sign e m req clock sid)))).
Proof.
  simpl. unfold auth_onRequestPost.
  destruct (checkRateLimit m (ar_ip req) 5 60000 (clock 0%nat)) as [rc m'].
  simpl. destruct (allowed rc); simpl.
  - split; [reflexivity|]. split; [|discriminate]. split; [|discriminate].
    repeat case_match; simpl; discriminate.
  - split; [reflexivity|]. split; [split; reflexivity|].
    intros _. eexists. right; left; reflexivity.
Qed.

Lemma auth_seq_rl (jwt_sign : jsval -> jsval -> string) (e : env)
    (reqs : list (auth_request * (nat -> Z) * string)) (m : gmap string rl_entry)
    (ip : option string) :
  Forall (fun x => ar_ip x.1.1 = ip) reqs ->
  Forall2 (fun resp a => (status resp = 429 <-> a = false) /\
                         (a = false -> exists v, In ("Retry-After", v) (headers resp)))
    (fst (auth_seq jwt_sign e m reqs))
    (fst (rl_calls m ip 5 60000 (map (fun x => x.1.2 0%nat) reqs))).
Proof.
  revert m. induction reqs as [|[[req clock] sid] reqs IH]; intros m Hip.
  - constructor.
  - apply Forall_cons in Hip as [Hr Hip]. simpl in Hr. subst ip.
    pose proof (auth_step jwt_sign e m req clock sid) as (Hm & Hs & Hh).
    simpl auth_seq. simpl map. simpl rl_calls.
    destruct (auth_onRequestPost jwt_sign e m req clock sid) as [resp m1].
    destruct (checkRateLimit m (ar_ip req) 5 60000 (clock 0%nat)) as [rc m1'].
    simpl in Hm, Hs, Hh. subst m1'.
    specialize (IH m1 Hip).
    destruct (auth_seq jwt_sign e m1 reqs) as [rs m2].
    destruct (rl_calls m1 (ar_ip req) 5 60000 _) as [bs m3].
    simpl in IH |- *. constructor; [split; assumption | exact IH].
Qed.

(** C4: [checkRateLimit] resets a missing or expired entry to count 1 and
    [resetAt = now + windowMs] and allows the call; otherwise it increments
    the count and allows the call iff the new count is at most
    [maxRequests].  From a fresh key with [maxRequests = 5], six calls
    within the window give [true] five times, then [false]; on the auth
    endpoint the sixth of six such requests is answered 429 with a
    [Retry-After] header, the first five are not. *)
Theorem rate_limit_window_semantics :
  (forall (m : gmap string rl_entry) ip mx w now,
     (m !! client_key ip = None \/
      exists en, m !! client_key ip = Some en /\ now > resetAt en) ->
     allowed (fst (checkRateLimit m ip mx w now)) = true /\
     snd (checkRateLimit m ip mx w now) !! client_key ip
       = Some {| count := 1; resetAt := now + w |}) /\
  (forall (m : gmap string rl_entry) ip mx w now en,
     m !! client_key ip = Some en -> now <= resetAt en ->
     allowed (fst (checkRateLimit m ip mx w now)) = (count en + 1 <=? mx) /\
     snd (checkRateLimit m ip mx w now) !! client_key ip
       = Some {| count := count en + 1; resetAt := resetAt en |}) /\
  (forall (m : gmap string rl_entry) ip t1 ts,
     m !! client_key ip = None -> length ts = 5%nat ->
     Forall (fun t => t <= t1 + 60000) ts ->
     fst (rl_calls m ip 5 60000 (t1 :: ts)) = [true; true; true; true; true; false]) /\
  (forall jwt_sign e (m : gmap string rl_entry) req1 clk1 sid1 rest,
     m !! client_key (ar_ip req1) = None -> length rest = 5%nat ->
     Forall (fun x => ar_ip x.1.1 = ar_ip req1 /\ x.1.2 0%nat <= clk1 0%nat + 60000) rest ->
     exists r1 r2 r3 r4 r5 r6,
       fst (auth_seq jwt_sign e m ((req1, clk1, sid1) :: rest)) = [r1; r2; r3; r4; r5; r6] /\
       Forall (fun r => status r <> 429) [r1; r2; r3; r4; r5] /\
       status r6 = 429 /\ exists v, In ("Retry-After", v) (headers r6)).
Proof.
  split; [|split; [|split]].
  - intros m ip mx w now H. rewrite (checkRateLimit_fresh m ip mx w now H).
    split; [reflexivity | apply lookup_insert_eq].
  - intros m ip mx w now en H Hle. rewrite (checkRateLimit_live m ip mx w now en H Hle).
    split; [reflexivity | apply lookup_insert_eq].
  - exact rl_six_calls.
  - intros jwt_sign e m req1 clk1 sid1 rest Hm Hlen Hrest.
    assert (Hip : Forall (fun x => ar_ip x.1.1 = ar_ip req1) ((req1, clk1, sid1) :: rest)).
    { constructor; [reflexivity|]. eapply Forall_impl; [exact Hrest|]. intros x [Hx _]; exact Hx. }
    pose proof (auth_seq_rl jwt_sign e _ m _ Hip) as F.
    change (map (fun x => x.1.2 0%nat) ((req1, clk1, sid1) :: rest))
      with (clk1 0%nat :: map (fun x : auth_request * (nat -> Z) * string => x.1.2 0%nat) rest) in F.
    rewrite (rl_six_calls m (ar_ip req1) (clk1 0%nat) (map (fun x => x.1.2 0%nat) rest) Hm)
      in F; [| rewrite length_map; exact Hlen |].
    2:{ apply Forall_map. eapply Forall_impl; [exact Hrest|]. intros x [_ Hx]; exact Hx. }
    repeat match goal with
           | H : Forall2 _ _ (_ :: _) |- _ =>
               apply Forall2_cons_inv_r in H as (? & ? & ? & H & ?)
           end.
    apply Forall2_nil_inv_r in F. subst.
    match goal with |- context [fst ?a] => destruct a as [l ?] end. simpl in *. subst l.
    do 6 eexists. split; [reflexivity|].
    repeat match goal with H : (_ <-> _) /\ _ |- _ => destruct H end.
    split; [repeat constructor; intros Hs; naive_solver |].
    split; [naive_solver | naive_solver].
Qed.

Lemma rate_limit_window_semantics_witness :
  (allowed (fst (checkRateLimit ∅ (Some "10.0.0.1") 5 60000 1000)) = true /\
   snd (checkRateLimit ∅ (Some "10.0.0.1") 5 60000 1000) !! "10.0.0.1"
     = Some {| count := 1; resetAt := 61000 |}) /\
  (allowed (fst (checkRateLimit {[ "10.0.0.1" := {| count := 2; resetAt := 61000 |} ]}
                   (Some "10.0.0.1") 5 60000 2000)) = (2 + 1 <=? 5) /\
   snd (checkRateLimit {[ "10.0.0.1" := {| count := 2; resetAt := 61000 |} ]}
          (Some "10.0.0.1") 5 60000 2000) !! "10.0.0.1"
     = Some {| count := 3; resetAt := 61000 |}) /\
  fst (rl_calls ∅ (Some "10.0.0.1") 5 60000 [1000; 1100; 1200; 1300; 1400; 1500])
    = [true; true; true; true; true; false] /\
  (exists r1 r2 r3 r4 r5 r6,
     fst (auth_seq (fun _ _ => "token") rl_demo_env ∅
            ((rl_demo_req, fun _ => 1000, "s1")
             :: map (fun t => (rl_demo_req, fun _ : nat => t, "s"))
                  [1100; 1200; 1300; 1400; 1500])) = [r1; r2; r3; r4; r5; r6] /\
     Forall (fun r => status r <> 429) [r1; r2; r3; r4; r5] /\
     status r6 = 429 /\ exists v, In ("Retry-After", v) (headers r6)).
Proof.
  destruct rate_limit_window_semantics as (P1 & P2 & P3 & P4).
  split; [|split; [|split]].
  - apply (P1 ∅ (Some "10.0.0.1") 5 60000 1000). left; reflexivity.
  - apply (P2 {[ "10.0.0.1" := {| count := 2; resetAt := 61000 |} ]}
             (Some "10.0.0.1") 5 60000 2000 {| count := 2; resetAt := 61000 |});
      [reflexivity | simpl; lia].
  - apply (P3 ∅ (Some "10.0.0.1") 1000 [1100; 1200; 1300; 1400; 1500]);
      [reflexivity | reflexivity | repeat constructor; simpl; lia].
  - apply (P4 (fun _ _ => "token") rl_demo_env ∅ rl_demo_req (fun _ => 1000) "s1");
      [reflexivity | reflexivity | repeat constructor; simpl; lia].
Defined.

(** C10: a call within an unexpired window increments the stored count
    and keeps [resetAt], whether or not it is allowed; a call after
    [resetAt] is allowed and starts a new window.  Hence after any number
    of calls within the window, [resetAt] is unchanged and the first call
    strictly after it is allowed with the count reset to 1. *)
Theorem rate_limit_lockout_not_extended :
  (forall (m : gmap string rl_entry) ip mx w now en,
     m !! client_key ip = Some en -> now <= resetAt en ->
     snd (checkRateLimit m ip mx w now) !! client_key ip
       = Some {| count := count en + 1; resetAt := resetAt en |}) /\
  (forall (m : gmap string rl_entry) ip mx w now en,
     m !! client_key ip = Some en -> now > resetAt en ->
     allowed (fst (checkRateLimit m ip mx w now)) = true /\
     snd (checkRateLimit m ip mx w now) !! client_key ip
       = Some {| count := 1; resetAt := now + w |}) /\
  (forall (m : gmap string rl_entry) ip mx w ts t en,
     m !! client_key ip = Some en -> Forall (fun t' => t' <= resetAt en) ts ->
     t > resetAt en ->
     snd (rl_calls m ip mx w ts) !! client_key ip
       = Some {| count := count en + Z.of_nat (length ts); resetAt := resetAt en |} /\
     allowed (fst (checkRateLimit (snd (rl_calls m ip mx w ts)) ip mx w t)) = true /\
     snd (checkRateLimit (snd (rl_calls m ip mx w ts)) ip mx w t) !! client_key ip
       = Some {| count := 1; resetAt := t + w |}).
Proof.
  split; [|split].
  - intros m ip mx w now en H Hle. rewrite (checkRateLimit_live m ip mx w now en H Hle).
    apply lookup_insert_eq.
  - intros m ip mx w now en H Hgt.
    rewrite (checkRateLimit_fresh m ip mx w now (or_intror (ex_intro _ en (conj H Hgt)))).
    split; [reflexivity | apply lookup_insert_eq].
  - intros m ip mx w ts t en H Hts Ht.
    destruct (rl_calls_window ts m ip mx w en H Hts) as [_ H2].
    split; [exact H2|].
    rewrite (checkRateLimit_fresh _ ip mx w t); [split; [reflexivity | apply lookup_insert_eq]|].
    right. eexists. split; [exact H2|]. simpl. exact Ht.
Qed.

Lemma rate_limit_lockout_not_extended_witness :
  snd (checkRateLimit {[ "unknown" := {| count := 7; resetAt := 1000 |} ]} None 5 60000 500)
    !! "unknown" = Some {| count := 8; resetAt := 1000 |} /\
  (allowed (fst (checkRateLimit {[ "unknown" := {| count := 7; resetAt := 1000 |} ]}
                   None 5 60000 2000)) = true /\
   snd (checkRateLimit {[ "unknown" := {| count := 7; resetAt := 1000 |} ]} None 5 60000 2000)
     !! "unknown" = Some {| count := 1; resetAt := 62000 |}) /\
  (snd (rl_calls {[ "unknown" := {| count := 7; resetAt := 1000 |} ]} None 5 60000 [100; 900])
     !! "unknown" = Some {| count := 9; resetAt := 1000 |} /\
   allowed (fst (checkRateLimit
     (snd (rl_calls {[ "unknown" := {| count := 7; resetAt := 1000 |} ]} None 5 60000 [100; 900]))
     None 5 60000 1001)) = true /\
   snd (checkRateLimit
     (snd (rl_calls {[ "unknown" := {| count := 7; resetAt := 1000 |} ]} None 5 60000 [100; 900]))
     None 5 60000 1001) !! "unknown" = Some {| count := 1; resetAt := 61001 |}).
Proof.
  destruct rate_limit_lockout_not_extended as (P1 & P2 & P3).
  split; [|split].
  - apply (P1 _ None 5 60000 500 {| count := 7; resetAt := 1000 |});
      [reflexivity | simpl; lia].
  - apply (P2 _ None 5 60000 2000 {| count := 7; resetAt := 1000 |});
      [reflexivity | simpl; lia].
  - apply (P3 _ None 5 60000 [100; 900] 1001 {| count := 7; resetAt := 1000 |});
      [reflexivity | repeat constructor; simpl; lia | simpl; lia].
Defined.

(** C7: [validateRestaurantData] does not return the accumulated errors
    of every record.  On [{name: 5, foodTypes: [], serviceTypes: []}] two
    checks apply (food type and service type), but [restaurant.name.trim()]
    throws a TypeError on the number [5].  POST [/api/restaurants] with
    that body then answers 500 ["Failed to add restaurant: ..."] instead of
    400 with the combined messages, and writes nothing. *)
Theorem validate_numeric_name_throws (e : env) (s : store) (uuid : string) :
  validateRestaurantData numeric_name_restaurant = None /\
  applicable_errors numeric_name_restaurant
    = ["At least one food type is required"; "At least one service type is required"] /\
  run s (Restaurants.onRequestPost e true (Some numeric_name_restaurant) uuid)
  = (inl (errorResponse ("Failed to add restaurant: " +:+ "TypeError") 500 e), s).
Proof. split; [reflexivity|]. split; reflexivity. Qed.

(** [validateRestaurantData] throws exactly when the record
    is [null]/[undefined] or its name is truthy and not a string; otherwise
    its [errors] are all the applicable messages, in the order of the
    checks, and [valid] holds iff there are none.  On
    [{name: "", foodTypes: [], serviceTypes: []}] it returns
    [valid = false] with the three errors on name, food type and service
    type. *)
Theorem validate_accumulates_errors :
  (forall r, validateRestaurantData r = None <-> validation_throws r = true) /\
  (forall r res, validateRestaurantData r = Some res ->
     errors res = applicable_errors r /\ valid res = bool_decide (errors res = [])) /\
  validateRestaurantData empty_restaurant
    = Some {| valid := false;
              errors := ["Restaurant name is required";
                         "At least one food type is required";
                         "At least one service type is required"] |}.
Proof.
  split; [exact validate_none_iff|]. split; [exact validate_some|]. reflexivity.
Qed.

Lemma validate_accumulates_errors_witness :
  exists res, validateRestaurantData empty_restaurant = Some res /\
    errors res = applicable_errors empty_restaurant /\
    valid res = bool_decide (errors res = []).
Proof.
  eexists. split; [reflexivity|].
  apply (proj1 (proj2 validate_accumulates_errors) empty_restaurant). reflexivity.
Defined.

(** *** Tokens *)

Section VerifyPrimitives.

Variable hmac_sha256 : list Z -> list Z -> list Z.
Variable importKey_ok : list Z -> bool.
Variable json_parse : string -> option jsval.
Variable str_to_number : string -> option Z.

Lemma verify_true_iff (token secret : string) (nowMs : Z) :
  verify hmac_sha256 importKey_ok json_parse str_to_number token secret nowMs = true <->
  exists h p s sigStr payloadStr v,
    split_dot token = [h; p; s] /\
    importKey_ok (text_encode secret) = true /\
    base64UrlDecode s = Some sigStr /\
    hmac_sha256 (text_encode secret) (text_encode (h +:+ "." +:+ p)) = bytes_of_string sigStr /\
    base64UrlDecode p = Some payloadStr /\
    json_parse payloadStr = Some v /\ v <> JUndef /\ v <> JNull /\
    ~ (truthy (prop v "exp") = true /\
       js_lt_num str_to_number (prop v "exp") (nowMs / 1000) = true).
Proof.
  unfold verify, verify_try. split.
  - destruct (split_dot token) as [|h [|p [|s [|x rest]]]] eqn:Hsplit; try discriminate.
    destruct (importKey_ok _) eqn:Hk; [|discriminate]. simpl.
    destruct (base64UrlDecode s) as [sigStr|] eqn:Hs; [|discriminate]. simpl.
    case_bool_decide as Hm; [|discriminate]. simpl.
    destruct (base64UrlDecode p) as [payloadStr|] eqn:Hp; [|discriminate]. simpl.
    destruct (json_parse payloadStr) as [v|] eqn:Hj; [|discriminate]. simpl.
    destruct (get_prop v "exp") as [ex|] eqn:He; [|discriminate].
    destruct (truthy ex && js_lt_num _ ex _) eqn:Hx; [discriminate|]. intros _.
    assert (v <> JUndef /\ v <> JNull) as [HU HN] by (split; intros ->; discriminate He).
    exists h, p, s, sigStr, payloadStr, v. repeat split; auto.
    unfold prop; rewrite He; simpl. intros [H1 H2]. rewrite H1, H2 in Hx. discriminate.
  - intros (h & p & s & sigStr & payloadStr & v & Hsplit & Hk & Hs & Hm & Hp & Hj & HU & HN & Hx).
    rewrite Hsplit, Hk. simpl. rewrite Hs. simpl.
    rewrite bool_decide_true by exact Hm. simpl. rewrite Hp. simpl. rewrite Hj. simpl.
    rewrite (get_prop_some v "exp" HU HN).
    destruct (truthy (prop v "exp")) eqn:T; simpl; [|reflexivity].
    destruct (js_lt_num _ (prop v "exp") _) eqn:L; [exfalso; apply Hx; auto | reflexivity].
Qed.

End VerifyPrimitives.

(** C3, counterexample: a correctly signed token whose payload is
    [{"exp":0}] verifies at [now = 1700000000000] although [0] is below the
    current epoch seconds ([exp] is falsy and skipped); and a correctly
    signed token whose payload is [null] is rejected (reading [null.exp]
    throws) although no listed failure condition holds. *)
Lemma verify_counterexample :
  sign_c (JObj [("exp", JNum 0)]) "secret" = Some token_exp0 /\
  option_map JsonFragment.parse (base64UrlDecode "eyJleHAiOjB9")
    = Some (Some (JObj [("exp", JNum 0)])) /\
  0 < 1700000000000 / 1000 /\
  verify_c token_exp0 "secret" 1700000000000 = true /\
  sign_c JNull "secret" = Some token_null /\
  option_map JsonFragment.parse (base64UrlDecode "bnVsbA") = Some (Some JNull) /\
  verify_c token_null "secret" 1700000000000 = false.
Proof. vm_compute. repeat split. Qed.

(** C3 (amended): [verify] returns a boolean, and returns [true] exactly
    when the token has three segments, the key import succeeds, the
    signature segment decodes to the HMAC-SHA256 of the first two
    segments, the payload segment decodes and parses to a value other than
    [null]/[undefined], and it is not the case that [exp] is truthy and
    below the current epoch seconds; in every other case it returns
    [false]. *)
Theorem verify_characterization (hmac_sha256 : list Z -> list Z -> list Z)
    (importKey_ok : list Z -> bool) (json_parse : string -> option jsval)
    (str_to_number : string -> option Z) (token secret : string) (nowMs : Z) :
  verify hmac_sha256 importKey_ok json_parse str_to_number token secret nowMs = true <->
  exists h p s sigStr payloadStr v,
    split_dot token = [h; p; s] /\
    importKey_ok (text_encode secret) = true /\
    base64UrlDecode s = Some sigStr /\
    hmac_sha256 (text_encode secret) (text_encode (h +:+ "." +:+ p)) = bytes_of_string sigStr /\
    base64UrlDecode p = Some payloadStr /\
    json_parse payloadStr = Some v /\ v <> JUndef /\ v <> JNull /\
    ~ (truthy (prop v "exp") = true /\
       js_lt_num str_to_number (prop v "exp") (nowMs / 1000) = true).
Proof. apply verify_true_iff. Qed.

Lemma verify_characterization_witness :
  exists h p s sigStr payloadStr v,
    split_dot token_iat5 = [h; p; s] /\
    importKey_nonempty (text_encode "secret") = true /\
    base64UrlDecode s = Some sigStr /\
    Sha256.hmac (text_encode "secret") (text_encode (h +:+ "." +:+ p)) = bytes_of_string sigStr /\
    base64UrlDecode p = Some payloadStr /\
    JsonFragment.parse payloadStr = Some v /\ v <> JUndef /\ v <> JNull /\
    ~ (truthy (prop v "exp") = true /\
       js_lt_num JsonFragment.to_number (prop v "exp") (1700000000000 / 1000) = true).
Proof.
  apply (proj1 (verify_characterization Sha256.hmac importKey_nonempty JsonFragment.parse
                  JsonFragment.to_number token_iat5 "secret" 1700000000000)).
  vm_compute. reflexivity.
Defined.

(** C9, counterexample: the signed token with payload [null] parses into
    three segments, its signature verifies, its payload has no [exp], and
    [verify] still returns [false]. *)
Lemma verify_null_payload_counterexample :
  sign_c JNull "secret" = Some token_null /\
  split_dot token_null = ["eyJhbGciOiJIUzI1NiIsInR5cCI6IkpXVCJ9"; "bnVsbA";
                          "7DWrkJHEM03NP-M-9zlpZJ3Ud49InV9BpM_GlfnVpfM"] /\
  option_map JsonFragment.parse (base64UrlDecode "bnVsbA") = Some (Some JNull) /\
  prop JNull "exp" = JUndef /\
  verify_c token_null "secret" 1700000000000 = false.
Proof. vm_compute. repeat split. Qed.

(** C9 (amended): for a token with three segments whose signature verifies
    and whose payload decodes and parses to a value other than
    [null]/[undefined] with no [exp] or a falsy [exp], [verify] returns
    [true] at every time [nowMs]. *)
Theorem verify_without_exp_never_expires (hmac_sha256 : list Z -> list Z -> list Z)
    (importKey_ok : list Z -> bool) (json_parse : string -> option jsval)
    (str_to_number : string -> option Z) (token secret h p s : string) (v : jsval) :
  split_dot token = [h; p; s] ->
  importKey_ok (text_encode secret) = true ->
  option_map bytes_of_string (base64UrlDecode s)
    = Some (hmac_sha256 (text_encode secret) (text_encode (h +:+ "." +:+ p))) ->
  match base64UrlDecode p with Some ps => json_parse ps | None => None end = Some v ->
  v <> JNull -> v <> JUndef ->
  truthy (prop v "exp") = false ->
  forall nowMs,
    verify hmac_sha256 importKey_ok json_parse str_to_number token secret nowMs = true.
Proof.
  intros Hsplit Hk Hs Hj HN HU Hexp nowMs.
  apply verify_true_iff.
  destruct (base64UrlDecode s) as [sigStr|] eqn:Es; [|discriminate].
  destruct (base64UrlDecode p) as [payloadStr|] eqn:Ep; [|discriminate].
  injection Hs as Hs.
  exists h, p, s, sigStr, payloadStr, v. repeat split; auto.
  intros [H _]. congruence.
Qed.

Lemma verify_without_exp_never_expires_witness :
  verify_c token_iat5 "secret" 99999999999999999 = true.
Proof.
  apply (verify_without_exp_never_expires Sha256.hmac importKey_nonempty JsonFragment.parse
           JsonFragment.to_number token_iat5 "secret"
           "eyJhbGciOiJIUzI1NiIsInR5cCI6IkpXVCJ9" "eyJpYXQiOjV9"
           "PeWZJ9tBvjF5RKbCx6mJdx0UE2ezBqrFoHYz6JY2qW4" (JObj [("iat", JNum 5)]));
    first [vm_compute; reflexivity | discriminate].
Defined.

(** *** Objects and arrays *)

Lemma assoc_get_set_eq (k : string) (x : jsval) (fs : list (string * jsval)) :
  assoc_get k (assoc_set k x fs) = x.
Proof.
  induction fs as [|[k' v] fs IH]; simpl.
  - rewrite String.eqb_refl. reflexivity.
  - destruct (String.eqb k k') eqn:E; simpl; rewrite ?E; [reflexivity | exact IH].
Qed.

Lemma assoc_get_set_ne (k k2 : string) (x : jsval) (fs : list (string * jsval)) :
  k2 <> k -> assoc_get k2 (assoc_set k x fs) = assoc_get k2 fs.
Proof.
  intros Hne. induction fs as [|[k' v] fs IH]; simpl.
  - apply String.eqb_neq in Hne. rewrite Hne. reflexivity.
  - destruct (String.eqb k k') eqn:E; simpl.
    + apply String.eqb_eq in E. subst k'.
      apply String.eqb_neq in Hne. rewrite Hne. reflexivity.
    + destruct (String.eqb k2 k'); [reflexivity | exact IH].
Qed.

Lemma prop_set_prop_eq (fs : list (string * jsval)) (k : string) (x : jsval) :
  prop (set_prop (JObj fs) k x) k = x.
Proof. unfold prop; simpl. apply assoc_get_set_eq. Qed.

Lemma prop_set_prop_ne (fs : list (string * jsval)) (k k2 : string) (x : jsval) :
  k2 <> k -> prop (set_prop (JObj fs) k x) k2 = prop (JObj fs) k2.
Proof. intros Hne. unfold prop; simpl. apply assoc_get_set_ne; exact Hne. Qed.

Lemma strict_eq_str (v : jsval) (p : string) :
  strict_eq v (JStr p) = true <-> v = JStr p.
Proof.
  split.
  - destruct v; simpl; try discriminate. intros H. apply String.eqb_eq in H. subst. reflexivity.
  - intros ->. simpl. apply String.eqb_refl.
Qed.

Lemma id_match_obj (q : jsval) (p : string) :
  is_obj q -> Profiles.id_match (JStr p) q = Some (strict_eq (prop q "id") (JStr p)).
Proof. destruct q; simpl; try contradiction. reflexivity. Qed.

Lemma find_index_prefix (f : jsval -> option bool) (pre post : list jsval) (x : jsval) (i : Z) :
  Forall (fun q => f q = Some false) pre -> f x = Some true ->
  find_index f (pre ++ x :: post) i = Some (i + Z.of_nat (length pre)).
Proof.
  revert i. induction pre as [|q pre IH]; intros i Hpre Hx; simpl.
  - rewrite Hx. f_equal. lia.
  - apply Forall_cons in Hpre as [Hq Hpre]. rewrite Hq.
    rewrite (IH (i + 1) Hpre Hx). f_equal. lia.
Qed.

Lemma take_drop_middle_app (pre post : list jsval) (x : jsval) :
  take (length pre) (pre ++ x :: post) ++ drop (S (length pre)) (pre ++ x :: post)
  = pre ++ post.
Proof. induction pre as [|q pre IH]; simpl; [reflexivity|]. f_equal. exact IH. Qed.

Lemma cascade_filter (p : string) (xs : list jsval) :
  List.filter (fun q => negb (strict_eq q (JStr p))) xs = List.filter (fun q => negb (is_str p q)) xs.
Proof.
  apply List.filter_ext. intros q. destruct q; reflexivity.
Qed.

Lemma cascade_restaurant_obj (p : string) (fs : list (string * jsval)) :
  exists r', Profiles.cascade_restaurant p (JObj fs) = Some r' /\
             restaurant_cleaned p (JObj fs) r'.
Proof.
  unfold Profiles.cascade_restaurant, restaurant_cleaned.
  assert (Hp : prop (JObj fs) "profiles" = assoc_get "profiles" fs) by reflexivity.
  rewrite Hp. simpl.
  destruct (assoc_get "profiles" fs) as [| | | | |xs|] eqn:Ep;
    eexists; (split; [reflexivity|]);
    try (split; [intros; reflexivity | exact Hp]).
  split.
  - intros k Hk. apply prop_set_prop_ne. exact Hk.
  - unfold prop; simpl. rewrite assoc_get_set_eq, cascade_filter. reflexivity.
Qed.

Lemma cascade_all_ok (p : string) (rs : list jsval) :
  Forall is_obj rs ->
  exists rs', Profiles.cascade_all p rs = Some rs' /\ Forall2 (restaurant_cleaned p) rs rs'.
Proof.
  induction rs as [|r rs IH]; intros Hrs.
  - exists []. split; [reflexivity | constructor].
  - apply Forall_cons in Hrs as [Hr Hrs]. destruct (IH Hrs) as (rs' & E & F).
    destruct r as [| | | | | |fs]; try contradiction.
    destruct (cascade_restaurant_obj p fs) as (r' & Er & Cr).
    exists (r' :: rs'). simpl. rewrite Er, E. split; [reflexivity | constructor; assumption].
Qed.

(** *** Handlers *)

(** C2: deleting a profile [p <> "all"] present in [profiles] (the first
    element with id [p] is [target]; [pre] and [post] are the others, in
    order) from an available store performs one write, with the fetched
    version tag, of a document whose [profiles] is [pre ++ post], whose
    [restaurants] are the old ones with [p] dropped from each [profiles]
    sequence and nothing else changed, and whose other keys are
    unchanged. *)
Theorem profile_delete_cascades (e : env) (s : store) (p : string)
    (fs : list (string * jsval)) (pre post rs : list jsval) (target : jsval) :
  p <> "all" ->
  st_doc s = JObj fs -> st_online s = true ->
  assoc_get "profiles" fs = JArr (pre ++ target :: post) ->
  Forall (fun q => is_obj q /\ prop q "id" <> JStr p) pre ->
  is_obj target -> prop target "id" = JStr p ->
  assoc_get "restaurants" fs = JArr rs -> Forall is_obj rs ->
  exists fs' rs',
    run s (Profiles.onRequestDelete e true p)
      = (inl (successResponse (JObj [("success", JBool true); ("deleted", target)]) e),
         {| st_doc := JObj fs'; st_sha := S (st_sha s); st_online := true |}) /\
    prop (JObj fs') "profiles" = JArr (pre ++ post) /\
    prop (JObj fs') "restaurants" = JArr rs' /\
    Forall2 (restaurant_cleaned p) rs rs' /\
    (forall k, k <> "profiles" -> k <> "restaurants" -> prop (JObj fs') k = prop (JObj fs) k).
Proof.
  intros Hall Hdoc Hon Hps Hpre Htobj Htid Hrs Hrobj.
  destruct s as [doc sha online]; simpl in Hdoc, Hon |- *; subst doc online.
  unfold Profiles.onRequestDelete.
  apply String.eqb_neq in Hall. rewrite Hall. simpl.
  rewrite Hps. simpl.
  assert (Hidx : find_index (Profiles.id_match (JStr p)) (pre ++ target :: post) 0
                 = Some (Z.of_nat (length pre))).
  { rewrite find_index_prefix; [f_equal; lia| |].
    - eapply Forall_impl; [exact Hpre|]. intros q [Hq Hid].
      rewrite id_match_obj by exact Hq. f_equal.
      destruct (strict_eq (prop q "id") (JStr p)) eqn:E; [|reflexivity].
      apply strict_eq_str in E. contradiction.
    - rewrite id_match_obj by exact Htobj. f_equal. apply strict_eq_str. exact Htid. }
  rewrite Hidx. simpl.
  replace (Z.of_nat (length pre) =? -1) with false by (symmetry; apply Z.eqb_neq; lia).
  rewrite Nat2Z.id, take_drop_middle_app, list_lookup_middle by reflexivity. simpl.
  rewrite assoc_get_set_ne by discriminate. rewrite Hrs. simpl.
  destruct (cascade_all_ok p rs Hrobj) as (rs' & Ec & Fc). rewrite Ec. simpl.
  rewrite (get_prop_some target "name") by (destruct target; simpl in Htobj; easy || discriminate).
  simpl. rewrite Nat.eqb_refl. simpl.
  eexists _, rs'. split; [reflexivity|].
  split; [|split; [|split; [exact Fc|]]].
  - unfold prop; simpl. rewrite assoc_get_set_ne by discriminate. apply assoc_get_set_eq.
  - unfold prop; simpl. apply assoc_get_set_eq.
  - intros k Hk1 Hk2. unfold prop; simpl.
    rewrite !assoc_get_set_ne by assumption. reflexivity.
Qed.

Lemma get_prop_other (v : jsval) (k k2 : string) (x : jsval) :
  get_prop v k = Some x -> get_prop v k2 = Some (prop v k2).
Proof. intros H. apply get_prop_some; intros ->; discriminate H. Qed.

Lemma profile_delete_all_ret (e : env) :
  exists r, Profiles.onRequestDelete e true "all" = Ret r /\ status r = 400.
Proof. eexists. split; reflexivity. Qed.

Lemma profile_put_guard (e : env) (body id : jsval) :
  get_prop body "id" = Some id ->
  (truthy id = false \/ truthy (prop body "name") = false \/ id = JStr "all") ->
  exists r, Profiles.onRequestPut e true (Some body) = Ret r /\ status r = 400.
Proof.
  intros Hid Hc. pose proof (get_prop_other _ _ "name" _ Hid) as Hn.
  unfold Profiles.onRequestPut. simpl. rewrite Hid. simpl.
  destruct (truthy id) eqn:Ti; simpl; [|eexists; split; reflexivity].
  rewrite Hn. simpl.
  destruct (truthy (prop body "name")) eqn:Tn; simpl; [|eexists; split; reflexivity].
  destruct Hc as [Hc|[Hc|Hc]]; [discriminate|discriminate|subst id].
  simpl. eexists; split; reflexivity.
Qed.

Lemma profile_post_guard (e : env) (body id : jsval) :
  get_prop body "id" = Some id ->
  (truthy id = false \/ truthy (prop body "name") = false \/
   validateProfileId id = false \/ id = JStr "all") ->
  exists r, Profiles.onRequestPost e true (Some body) = Ret r /\ status r = 400.
Proof.
  intros Hid Hc. pose proof (get_prop_other _ _ "name" _ Hid) as Hn.
  unfold Profiles.onRequestPost. simpl. rewrite Hid. simpl.
  destruct (truthy id) eqn:Ti; simpl; [|eexists; split; reflexivity].
  rewrite Hn. simpl.
  destruct (truthy (prop body "name")) eqn:Tn; simpl; [|eexists; split; reflexivity].
  destruct (validateProfileId id) eqn:Tv; simpl; [|eexists; split; reflexivity].
  destruct Hc as [Hc|[Hc|[Hc|Hc]]]; try congruence. subst id.
  simpl. eexists; split; reflexivity.
Qed.

(** C6: deleting the profile ["all"], and editing or creating a profile
    with payload id ["all"], answer 400 without reading or writing the
    store. *)
Theorem profile_all_protected :
  (forall e, exists r, Profiles.onRequestDelete e true "all" = Ret r /\ status r = 400 /\
     forall s, run s (Profiles.onRequestDelete e true "all") = (inl r, s)) /\
  (forall e body, get_prop body "id" = Some (JStr "all") ->
     exists r, Profiles.onRequestPut e true (Some body) = Ret r /\ status r = 400 /\
     forall s, run s (Profiles.onRequestPut e true (Some body)) = (inl r, s)) /\
  (forall e body, get_prop body "id" = Some (JStr "all") ->
     exists r, Profiles.onRequestPost e true (Some body) = Ret r /\ status r = 400 /\
     forall s, run s (Profiles.onRequestPost e true (Some body)) = (inl r, s)).
Proof.
  split; [|split].
  - intros e. destruct (profile_delete_all_ret e) as (r & E & S).
    exists r. rewrite E. repeat split; auto.
  - intros e body H. destruct (profile_put_guard e body _ H) as (r & E & S); [auto|].
    exists r. rewrite E. repeat split; auto.
  - intros e body H. destruct (profile_post_guard e body _ H) as (r & E & S); [auto|].
    exists r. rewrite E. repeat split; auto.
Qed.

Lemma restaurant_post_guard (e : env) (body : jsval) (uuid : string) :
  match validateRestaurantData body with Some v => valid v = false | None => True end ->
  exists r, Restaurants.onRequestPost e true (Some body) uuid = Ret r.
Proof.
  intros H. unfold Restaurants.onRequestPost. simpl.
  destruct (validateRestaurantData body) as [v|]; simpl; [|eexists; reflexivity].
  rewrite H. simpl. eexists; reflexivity.
Qed.

Lemma restaurant_put_guard (e : env) (body : jsval) :
  match validateRestaurantData body with
  | Some v => valid v = false \/ truthy (prop body "id") = false
  | None => True
  end ->
  exists r, Restaurants.onRequestPut e true (Some body) = Ret r.
Proof.
  intros H. unfold Restaurants.onRequestPut. simpl.
  destruct (validateRestaurantData body) as [v|] eqn:Ev; simpl; [|eexists; reflexivity].
  destruct (valid v) eqn:Vv; simpl; [|eexists; reflexivity].
  destruct H as [H|H]; [discriminate|].
  destruct (get_prop body "id") as [id|] eqn:Ei; simpl; [|eexists; reflexivity].
  unfold prop in H. rewrite Ei in H. simpl in H. rewrite H. simpl. eexists; reflexivity.
Qed.

(** C8: a restaurant POST/PUT whose payload fails validation (or, for PUT,
    has no id), a profile POST/PUT with a missing id or name, a malformed
    or reserved id, a profile DELETE of ["all"], answer without any fetch
    or write (the program is a plain [Ret], so the store is unchanged);
    an auth request over the rate limit is answered 429, and the auth
    handler has no access to the store at all. *)
Theorem rejected_requests_store_free :
  (forall e body uuid,
     match validateRestaurantData body with Some v => valid v = false | None => True end ->
     exists r, Restaurants.onRequestPost e true (Some body) uuid = Ret r /\
       forall s, run s (Restaurants.onRequestPost e true (Some body) uuid) = (inl r, s)) /\
  (forall e body,
     match validateRestaurantData body with
     | Some v => valid v = false \/ truthy (prop body "id") = false
     | None => True
     end ->
     exists r, Restaurants.onRequestPut e true (Some body) = Ret r /\
       forall s, run s (Restaurants.onRequestPut e true (Some body)) = (inl r, s)) /\
  (forall e body id, get_prop body "id" = Some id ->
     (truthy id = false \/ truthy (prop body "name") = false \/
      validateProfileId id = false \/ id = JStr "all") ->
     exists r, Profiles.onRequestPost e true (Some body) = Ret r /\ status r = 400 /\
       forall s, run s (Profiles.onRequestPost e true (Some body)) = (inl r, s)) /\
  (forall e body id, get_prop body "id" = Some id ->
     (truthy id = false \/ truthy (prop body "name") = false \/ id = JStr "all") ->
     exists r, Profiles.onRequestPut e true (Some body) = Ret r /\ status r = 400 /\
       forall s, run s (Profiles.onRequestPut e true (Some body)) = (inl r, s)) /\
  (forall e, exists r, Profiles.onRequestDelete e true "all" = Ret r /\ status r = 400 /\
     forall s, run s (Profiles.onRequestDelete e true "all") = (inl r, s)) /\
  (forall jwt_sign e m req clock sid,
     allowed (fst (checkRateLimit m (ar_ip req) 5 60000 (clock 0%nat))) = false ->
     status (fst (auth_onRequestPost jwt_sign e m req clock sid)) = 429 /\
     snd (auth_onRequestPost jwt_sign e m req clock sid)
       = snd (checkRateLimit m (ar_ip req) 5 60000 (clock 0%nat))).
Proof.
  split; [|split; [|split; [|split; [|split]]]].
  - intros e body uuid H. destruct (restaurant_post_guard e body uuid H) as (r & E).
    exists r. rewrite E. auto.
  - intros e body H. destruct (restaurant_put_guard e body H) as (r & E).
    exists r. rewrite E. auto.
  - intros e body id Hid H. destruct (profile_post_guard e body id Hid H) as (r & E & S).
    exists r. rewrite E. auto.
  - intros e body id Hid H. destruct (profile_put_guard e body id Hid H) as (r & E & S).
    exists r. rewrite E. auto.
  - intros e. destruct (profile_delete_all_ret e) as (r & E & S).
    exists r. rewrite E. auto.
  - intros jwt_sign e m req clock sid H.
    pose proof (auth_step jwt_sign e m req clock sid) as (Hm & Hs & _).
    split; [apply Hs; exact H | exact Hm].
Qed.

Lemma profile_delete_cascades_witness :
  exists fs' rs',
    run cascade_store (Profiles.onRequestDelete rl_demo_env true "kids")
      = (inl (successResponse
                (JObj [("success", JBool true);
                       ("deleted", JObj [("id", JStr "kids"); ("name", JStr "Kids")])])
                rl_demo_env),
         {| st_doc := JObj fs'; st_sha := S (st_sha cascade_store); st_online := true |}) /\
    prop (JObj fs') "profiles"
      = JArr ([JObj [("id", JStr "all"); ("name", JStr "All Restaurants")]] ++ []) /\
    prop (JObj fs') "restaurants" = JArr rs' /\
    Forall2 (restaurant_cleaned "kids") cascade_restaurants rs' /\
    (forall k, k <> "profiles" -> k <> "restaurants" ->
       prop (JObj fs') k = prop (JObj cascade_fields) k).
Proof.
  apply (profile_delete_cascades rl_demo_env cascade_store "kids" cascade_fields
           [JObj [("id", JStr "all"); ("name", JStr "All Restaurants")]] []
           cascade_restaurants (JObj [("id", JStr "kids"); ("name", JStr "Kids")]));
    try reflexivity; repeat first [constructor | discriminate | simpl; discriminate].
Defined.

Lemma profile_all_protected_witness :
  (exists r, Profiles.onRequestDelete rl_demo_env true "all" = Ret r /\ status r = 400 /\
     forall s, run s (Profiles.onRequestDelete rl_demo_env true "all") = (inl r, s)) /\
  (exists r, Profiles.onRequestPut rl_demo_env true (Some profile_all_body) = Ret r /\
     status r = 400 /\
     forall s, run s (Profiles.onRequestPut rl_demo_env true (Some profile_all_body)) = (inl r, s)) /\
  (exists r, Profiles.onRequestPost rl_demo_env true (Some profile_all_body) = Ret r /\
     status r = 400 /\
     forall s, run s (Profiles.onRequestPost rl_demo_env true (Some profile_all_body)) = (inl r, s)).
Proof.
  destruct profile_all_protected as (P1 & P2 & P3).
  split; [exact (P1 rl_demo_env) | split].
  - apply (P2 rl_demo_env profile_all_body). reflexivity.
  - apply (P3 rl_demo_env profile_all_body). reflexivity.
Defined.

Lemma rejected_requests_store_free_witness :
  (exists r, Restaurants.onRequestPost rl_demo_env true (Some empty_restaurant) "uuid-1" = Ret r /\
     forall s, run s (Restaurants.onRequestPost rl_demo_env true (Some empty_restaurant) "uuid-1")
               = (inl r, s)) /\
  (exists r, Restaurants.onRequestPut rl_demo_env true (Some empty_restaurant) = Ret r /\
     forall s, run s (Restaurants.onRequestPut rl_demo_env true (Some empty_restaurant))
               = (inl r, s)) /\
  (exists r, Profiles.onRequestPost rl_demo_env true (Some profile_bad_id_body) = Ret r /\
     status r = 400 /\
     forall s, run s (Profiles.onRequestPost rl_demo_env true (Some profile_bad_id_body))
               = (inl r, s)) /\
  (exists r, Profiles.onRequestPut rl_demo_env true (Some profile_all_body) = Ret r /\
     status r = 400 /\
     forall s, run s (Profiles.onRequestPut rl_demo_env true (Some profile_all_body))
               = (inl r, s)) /\
  (exists r, Profiles.onRequestDelete rl_demo_env true "all" = Ret r /\ status r = 400 /\
     forall s, run s (Profiles.onRequestDelete rl_demo_env true "all") = (inl r, s)) /\
  (status (fst (auth_onRequestPost (fun _ _ => "token") rl_demo_env
                  {[ "10.0.0.1" := {| count := 5; resetAt := 61000 |} ]}
                  rl_demo_req (fun _ => 2000) "s1")) = 429 /\
   snd (auth_onRequestPost (fun _ _ => "token") rl_demo_env
          {[ "10.0.0.1" := {| count := 5; resetAt := 61000 |} ]}
          rl_demo_req (fun _ => 2000) "s1")
     = snd (checkRateLimit {[ "10.0.0.1" := {| count := 5; resetAt := 61000 |} ]}
              (ar_ip rl_demo_req) 5 60000 2000)).
Proof.
  destruct rejected_requests_store_free as (P1 & P2 & P3 & P4 & P5 & P6).
  split; [|split; [|split; [|split; [|split]]]].
  - apply (P1 rl_demo_env empty_restaurant "uuid-1"). reflexivity.
  - apply (P2 rl_demo_env empty_restaurant). simpl. left; reflexivity.
  - apply (P3 rl_demo_env profile_bad_id_body (JStr "Bad Id")); [reflexivity|].
    right; right; left; reflexivity.
  - apply (P4 rl_demo_env profile_all_body (JStr "all")); [reflexivity|].
    right; right; reflexivity.
  - exact (P5 rl_demo_env).
  - apply (P6 (fun _ _ => "token") rl_demo_env _ rl_demo_req (fun _ => 2000) "s1").
    reflexivity.
Defined.

(** C1: on a document whose restaurant has the legacy numeric id [5],
    an otherwise valid update with id ["5"] is answered 404 and nothing is
    written, although [String(r.id) === String(payload.id)] holds and the
    DELETE handler's string comparison finds the record at index 0. *)
Theorem restaurant_put_legacy_id_not_found (e : env) :
  validateRestaurantData legacy_update = Some {| valid := true; errors := [] |} /\
  run legacy_store (Restaurants.onRequestPut e true (Some legacy_update))
    = (inl (errorResponse "Restaurant not found" 404 e), legacy_store) /\
  js_to_string (prop legacy_restaurant "id") = js_to_string (prop legacy_update "id") /\
  array_findIndex (JArr [legacy_restaurant]) (Restaurants.delete_match "5") = Some 0.
Proof. repeat split. Qed.


(* ------------------------------------------------------------------ *)
(** ** Further properties of the code *)

Lemma byte_of_chr (m : Z) : 0 <= m < 256 -> byte_of (chr m) = m.
Proof.
  intros H. unfold byte_of, chr. rewrite Ascii.nat_ascii_embedding by lia. lia.
Qed.

Lemma chr_byte_of (c : ascii) : chr (byte_of c) = c.
Proof. unfold byte_of, chr. rewrite Nat2Z.id. apply Ascii.ascii_nat_embedding. Qed.

Lemma byte_of_range (c : ascii) : 0 <= byte_of c < 256.
Proof. unfold byte_of. pose proof (Ascii.nat_ascii_bounded c). lia. Qed.

(** Case analysis on the integer comparisons of the goal. *)
Ltac zbools :=
  repeat (match goal with
          | |- context [?x =? ?y] => destruct (Z.eqb_spec x y)
          | |- context [?x <? ?y] => destruct (Z.ltb_spec x y)
          | |- context [?x <=? ?y] => destruct (Z.leb_spec x y)
          end); simpl; try lia.

Lemma b64_index_char (n : Z) : 0 <= n < 64 -> b64_index (b64_char n) = Some n.
Proof.
  intros H. unfold b64_char.
  destruct (Z.ltb_spec n 26); [|destruct (Z.ltb_spec n 52); [|destruct (Z.ltb_spec n 62);
    [|destruct (Z.eqb_spec n 62)]]];
    try (subst; reflexivity);
    try (unfold b64_index; rewrite byte_of_chr by lia; zbools; f_equal; lia).
  replace n with 63 by lia. reflexivity.
Qed.

Lemma b64_char_url (n : Z) : 0 <= n < 62 -> b64url_char (b64_char n) = true.
Proof.
  intros H. unfold b64_char.
  destruct (Z.ltb_spec n 26); [|destruct (Z.ltb_spec n 52); [|destruct (Z.ltb_spec n 62)]];
    try lia; unfold b64url_char; rewrite byte_of_chr by lia; zbools.
Qed.

Lemma b64_char_ne (n : Z) (c : ascii) :
  0 <= n < 64 -> b64_index c = None -> b64_char n <> c.
Proof. intros H Hc E. rewrite <- E, b64_index_char in Hc by lia. discriminate. Qed.

Lemma b64_char_plus (n : Z) : 0 <= n < 64 -> b64_char n = "+"%char -> n = 62.
Proof. intros H E. pose proof (b64_index_char n H) as I. rewrite E in I. vm_compute in I. congruence. Qed.

Lemma b64_char_slash (n : Z) : 0 <= n < 64 -> b64_char n = "/"%char -> n = 63.
Proof. intros H E. pose proof (b64_index_char n H) as I. rewrite E in I. vm_compute in I. congruence. Qed.

Lemma ws_not_b64 (c : ascii) : ascii_ws c = true -> b64_index c = None.
Proof.
  unfold ascii_ws, b64_index. generalize (byte_of c). intros n Hw.
  repeat rewrite orb_true_iff in Hw. rewrite !Z.eqb_eq in Hw.
  destruct Hw as [[[[-> | ->] | ->] | ->] | ->]; reflexivity.
Qed.

(* Lists of characters *)

Lemma sol_app (l1 l2 : list ascii) :
  string_of_list_ascii (l1 ++ l2) = string_of_list_ascii l1 +:+ string_of_list_ascii l2.
Proof. induction l1; simpl; [reflexivity | now rewrite IHl1]. Qed.

Lemma replace_char_sol (a b : ascii) (l : list ascii) :
  replace_char a b (string_of_list_ascii l)
  = string_of_list_ascii (map (fun c => if Ascii.eqb c a then b else c) l).
Proof. induction l; simpl; [reflexivity | now rewrite IHl]. Qed.

Lemma filter_str_sol (p : ascii -> bool) (l : list ascii) :
  filter_str p (string_of_list_ascii l) = string_of_list_ascii (List.filter p l).
Proof. induction l; simpl; [reflexivity | destruct (p a); simpl; now rewrite IHl]. Qed.

Lemma str_length_sol (l : list ascii) : str_length (string_of_list_ascii l) = length l.
Proof. induction l; simpl; lia. Qed.

Lemma bytes_of_string_sol (l : list ascii) :
  bytes_of_string (string_of_list_ascii l) = map byte_of l.
Proof. induction l; simpl; [reflexivity | now rewrite IHl]. Qed.

Lemma string_of_bytes_of_string (s : string) : string_of_bytes (bytes_of_string s) = s.
Proof. induction s; simpl; [reflexivity | now rewrite chr_byte_of, IHs]. Qed.

Lemma bytes_of_string_range (s : string) : Forall is_byte (bytes_of_string s).
Proof. induction s; simpl; constructor; auto. apply byte_of_range. Qed.

(* Sextets *)

Lemma b64_encode_sextets (bs : list Z) :
  b64_encode bs
  = string_of_list_ascii (map b64_char (sextets bs) ++ repeat "="%char (pad_count bs)).
Proof.
  revert bs. fix IH 1. intros [|a [|b [|c rest]]]; try reflexivity.
  simpl. rewrite IH. reflexivity.
Qed.

Lemma sextets_range (bs : list Z) : Forall is_byte bs -> Forall (fun v => 0 <= v < 64) (sextets bs).
Proof.
  revert bs. fix IH 1. intros [|a [|b [|c rest]]] H; unfold is_byte in *.
  - constructor.
  - inversion H; subst. repeat constructor; Z.div_mod_to_equations; lia.
  - inversion H as [|? ? Ha G1]; inversion G1; subst.
    repeat constructor; Z.div_mod_to_equations; lia.
  - inversion H as [|? ? Ha G1]; inversion G1 as [|? ? Hb G2]; inversion G2 as [|? ? Hc G3]; subst.
    simpl. repeat (apply Forall_cons; split; [Z.div_mod_to_equations; lia|]). now apply IH.
Qed.

Lemma sextets_length (bs : list Z) :
  exists q, (length (sextets bs) = 4 * q /\ pad_count bs = 0)%nat
         \/ (length (sextets bs) = 4 * q + 2 /\ pad_count bs = 2)%nat
         \/ (length (sextets bs) = 4 * q + 3 /\ pad_count bs = 1)%nat.
Proof.
  revert bs. fix IH 1. intros [|a [|b [|c rest]]].
  - exists 0%nat. simpl. lia.
  - exists 0%nat. simpl. lia.
  - exists 0%nat. simpl. lia.
  - destruct (IH rest) as [q Hq]. exists (S q). simpl. lia.
Qed.

Lemma decode_group1 (a b : Z) : is_byte a -> is_byte b ->
  a / 4 * 4 + ((a mod 4) * 16 + b / 16) / 16 = a.
Proof. unfold is_byte. intros. Z.div_mod_to_equations. nia. Qed.

Lemma decode_group2 (b c : Z) (x : Z) : is_byte b -> is_byte c -> 0 <= x < 4 ->
  ((x * 16 + b / 16) mod 16) * 16 + ((b mod 16) * 4 + c / 64) / 4 = b.
Proof. unfold is_byte. intros. Z.div_mod_to_equations. nia. Qed.

Lemma decode_group3 (b c : Z) : is_byte b -> is_byte c ->
  (((b mod 16) * 4 + c / 64) mod 4) * 64 + c mod 64 = c.
Proof. unfold is_byte. intros. Z.div_mod_to_equations. nia. Qed.

Lemma b64_decode_vals_sextets (bs : list Z) :
  Forall is_byte bs -> b64_decode_vals (sextets bs) = Some bs.
Proof.
  revert bs. fix IH 1. intros [|a [|b [|c rest]]] H; unfold is_byte in *.
  - reflexivity.
  - inversion H; subst. simpl. do 2 f_equal. Z.div_mod_to_equations. nia.
  - inversion H as [|? ? Ha G1]; inversion G1; subst. simpl.
    f_equal. f_equal; [|f_equal]; Z.div_mod_to_equations; nia.
  - inversion H as [|? ? Ha G1]; inversion G1 as [|? ? Hb G2]; inversion G2 as [|? ? Hc G3]; subst.
    cbn [sextets b64_decode_vals]. rewrite (IH rest G3). simpl.
    rewrite decode_group1, decode_group2, decode_group3 by (unfold is_byte; Z.div_mod_to_equations; lia).
    reflexivity.
Qed.

Lemma strip_ne (x : Z) (r : list Z) : x <> 61 ->
  match x :: r with 61 :: 61 :: r' => r' | 61 :: r' => r' | _ => x :: r end = x :: r.
Proof.
  intros H. destruct x as [|p|p]; try reflexivity.
  repeat (destruct p as [p|p|]; try reflexivity). now exfalso.
Qed.

Lemma strip_61_ne (x : Z) (r : list Z) : x <> 61 ->
  match 61 :: x :: r with 61 :: 61 :: r' => r' | 61 :: r' => r' | _ => 61 :: x :: r end
  = x :: r.
Proof.
  intros H. destruct x as [|p|p]; try reflexivity.
  repeat (destruct p as [p|p|]; try reflexivity). now exfalso.
Qed.

Lemma strip_6161 (r : list Z) :
  match 61 :: 61 :: r with 61 :: 61 :: r' => r' | 61 :: r' => r' | _ => 61 :: 61 :: r end = r.
Proof. reflexivity. Qed.

Lemma filter_id {A} (p : A -> bool) (l : list A) :
  (forall x, In x l -> p x = true) -> List.filter p l = l.
Proof.
  induction l as [|x l IH]; simpl; intros H; [reflexivity|].
  rewrite H by auto. f_equal. apply IH. auto.
Qed.

Lemma filter_none {A} (p : A -> bool) (l : list A) :
  (forall x, In x l -> p x = false) -> List.filter p l = [].
Proof.
  induction l as [|x l IH]; simpl; intros H; [reflexivity|].
  rewrite H by auto. apply IH. auto.
Qed.

Lemma filter_app' {A} (p : A -> bool) (l1 l2 : list A) :
  List.filter p (l1 ++ l2) = List.filter p l1 ++ List.filter p l2.
Proof. induction l1 as [|x l IH]; simpl; [reflexivity|]. destruct (p x); simpl; now rewrite IH. Qed.

Lemma map_option_b64 (V : list Z) : Forall (fun v => 0 <= v < 64) V ->
  map_option (fun b => b64_index (chr b)) (map (fun v => byte_of (b64_char v)) V) = Some V.
Proof.
  induction 1 as [|v V Hv HV IH]; simpl; [reflexivity|].
  rewrite chr_byte_of, b64_index_char by lia. rewrite IH. reflexivity.
Qed.

Lemma b64_byte_ne61 (v : Z) : 0 <= v < 64 -> byte_of (b64_char v) <> 61.
Proof.
  intros H E. apply (b64_char_ne v "="%char H); [reflexivity|].
  rewrite <- (chr_byte_of (b64_char v)), E. reflexivity.
Qed.

Lemma atob_b64 (V : list Z) (k : nat) :
  Forall (fun v => 0 <= v < 64) V -> (k = 0 \/ k = 1 \/ k = 2)%nat ->
  ((length V + k) mod 4 = 0)%nat ->
  atob (string_of_list_ascii (map b64_char V ++ repeat "="%char k))
  = (let? bytes := b64_decode_vals V in Some (string_of_bytes bytes)).
Proof.
  intros HV Hk Hlen. unfold atob.
  rewrite filter_str_sol, filter_id.
  2:{ intros x Hx. apply in_app_or in Hx as [Hx|Hx].
      - apply in_map_iff in Hx as [v [<- Hv]]. rewrite List.Forall_forall in HV.
        destruct (ascii_ws (b64_char v)) eqn:W; [|reflexivity].
        apply ws_not_b64 in W. rewrite b64_index_char in W by (apply HV; exact Hv). discriminate.
      - apply repeat_spec in Hx. subst. reflexivity. }
  rewrite bytes_of_string_sol, map_app, map_map, map_repeat.
  change (byte_of "="%char) with 61.
  rewrite rev_app_distr, rev_repeat.
  rewrite length_app, repeat_length, length_rev, length_map.
  replace ((k + length V) mod 4 =? 0)%nat with true by (symmetry; apply Nat.eqb_eq; rewrite Nat.add_comm; exact Hlen).
  assert (Hne : forall x, In x (rev (map (fun v => byte_of (b64_char v)) V)) -> x <> 61).
  { intros x Hx. apply in_rev, in_map_iff in Hx as [v [<- Hv]].
    rewrite List.Forall_forall in HV. apply b64_byte_ne61. auto. }
  destruct Hk as [-> | [-> | ->]]; simpl repeat; simpl app.
  - destruct (rev (map (fun v => byte_of (b64_char v)) V)) as [|x r] eqn:E.
    + rewrite <- E, rev_involutive, map_option_b64 by auto. reflexivity.
    + rewrite strip_ne by (apply Hne; left; reflexivity).
      rewrite <- E, rev_involutive, map_option_b64 by auto. reflexivity.
  - destruct (rev (map (fun v => byte_of (b64_char v)) V)) as [|x r] eqn:E.
    + apply (f_equal (@length Z)) in E. rewrite length_rev, length_map in E. simpl in E.
      rewrite E in Hlen. simpl in Hlen. discriminate.
    + rewrite strip_61_ne by (apply Hne; left; reflexivity).
      rewrite <- E, rev_involutive, map_option_b64 by auto. reflexivity.
  - rewrite (strip_6161 (rev (map (fun x => byte_of (b64_char x)) V))).
    rewrite rev_involutive, map_option_b64 by auto. reflexivity.
Qed.

Lemma b64_url_class (c : ascii) (n : Z) :
  b64_index c = Some n -> c <> "+"%char -> c <> "/"%char -> b64url_char c = true.
Proof.
  intros H N1 N2.
  assert (E1 : byte_of c <> 43) by (intros E; apply N1; rewrite <- (chr_byte_of c), E; reflexivity).
  assert (E2 : byte_of c <> 47) by (intros E; apply N2; rewrite <- (chr_byte_of c), E; reflexivity).
  revert H E1 E2. unfold b64_index, b64url_char. generalize (byte_of c). intros m.
  zbools; intros; try discriminate; try reflexivity; lia.
Qed.

Lemma url_char_trip (c : ascii) (n : Z) : b64_index c = Some n ->
  let u := (fun c => if Ascii.eqb c "/"%char then "_"%char else c)
             ((fun c => if Ascii.eqb c "+"%char then "-"%char else c) c) in
  Ascii.eqb u "="%char = false /\ b64url_char u = true /\
  (fun c => if Ascii.eqb c "_"%char then "/"%char else c)
    ((fun c => if Ascii.eqb c "-"%char then "+"%char else c) u) = c.
Proof.
  intros H. cbv beta zeta.
  destruct (Ascii.eqb_spec c "+"%char) as [->|N1]; [vm_compute; auto|].
  destruct (Ascii.eqb_spec c "/"%char) as [->|N2]; [vm_compute; auto|].
  destruct (Ascii.eqb_spec c "="%char) as [->|N3]; [vm_compute in H; discriminate|].
  destruct (Ascii.eqb_spec c "-"%char) as [->|N4]; [vm_compute in H; discriminate|].
  destruct (Ascii.eqb_spec c "_"%char) as [->|N5]; [vm_compute in H; discriminate|].
  split; [reflexivity|]. split; [|reflexivity]. eapply b64_url_class; eauto.
Qed.

Lemma pad_stop (f : nat) (l : list ascii) : (length l mod 4 = 0)%nat ->
  pad_eq f (string_of_list_ascii l) = string_of_list_ascii l.
Proof.
  intros H. destruct f; cbn [pad_eq]; [reflexivity|].
  rewrite str_length_sol, H. reflexivity.
Qed.

Lemma pad_step (f : nat) (l : list ascii) : (length l mod 4 <> 0)%nat ->
  pad_eq (S f) (string_of_list_ascii l) = pad_eq f (string_of_list_ascii (l ++ ["="%char])).
Proof.
  intros H. cbn [pad_eq]. rewrite str_length_sol.
  destruct (Nat.eqb_spec (length l mod 4) 0); [contradiction|].
  rewrite sol_app. reflexivity.
Qed.

Lemma pad_eq_sextets (bs : list Z) (l : list ascii) : length l = length (sextets bs) ->
  pad_eq 3 (string_of_list_ascii l) = string_of_list_ascii (l ++ repeat "="%char (pad_count bs)).
Proof.
  intros Hl. destruct (sextets_length bs) as [q [[H1 H2]|[[H1 H2]|[H1 H2]]]]; rewrite H2; rewrite <- Hl in H1.
  - rewrite pad_stop, app_nil_r; [reflexivity|]. rewrite H1, Nat.mul_comm, Nat.Div0.mod_mul. reflexivity.
  - rewrite pad_step, pad_step, pad_stop; rewrite ?length_app; simpl length; rewrite ?H1.
    + rewrite <- app_assoc. reflexivity.
    + replace (4 * q + 2 + 1 + 1)%nat with ((q + 1) * 4)%nat by lia. apply Nat.Div0.mod_mul.
    + replace (4 * q + 2 + 1)%nat with (3 + q * 4)%nat by lia. rewrite Nat.Div0.mod_add. discriminate.
    + replace (4 * q + 2)%nat with (2 + q * 4)%nat by lia. rewrite Nat.Div0.mod_add. discriminate.
  - rewrite pad_step, pad_stop; rewrite ?length_app; simpl length; rewrite ?H1.
    + reflexivity.
    + replace (4 * q + 3 + 1)%nat with ((q + 1) * 4)%nat by lia. apply Nat.Div0.mod_mul.
    + replace (4 * q + 3)%nat with (3 + q * 4)%nat by lia. rewrite Nat.Div0.mod_add. discriminate.
Qed.

Lemma base64UrlEncode_sextets (s : string) :
  base64UrlEncode s
  = string_of_list_ascii
      (map (fun x => (fun c => if Ascii.eqb c "/"%char then "_"%char else c)
                       ((fun c => if Ascii.eqb c "+"%char then "-"%char else c) (b64_char x)))
           (sextets (bytes_of_string s))).
Proof.
  unfold base64UrlEncode, btoa. rewrite b64_encode_sextets.
  pose proof (sextets_range _ (bytes_of_string_range s)) as HV.
  rewrite !replace_char_sol, filter_str_sol, !map_app, !map_map, filter_app', map_repeat.
  rewrite (filter_none _ (repeat _ _)) by (intros x Hx; apply repeat_spec in Hx; subst; reflexivity).
  rewrite app_nil_r, filter_id; [reflexivity|].
  intros x Hx. apply in_map_iff in Hx as [v [<- Hv]]. rewrite List.Forall_forall in HV.
  destruct (url_char_trip (b64_char v) v (b64_index_char v (HV v Hv))) as [A _].
  cbv beta zeta in *. rewrite A. reflexivity.
Qed.

Lemma all_chars_sol (p : ascii -> bool) (l : list ascii) :
  all_chars p (string_of_list_ascii l) = forallb p l.
Proof. induction l; simpl; [reflexivity | now rewrite IHl]. Qed.

(** [base64UrlDecode] inverts [base64UrlEncode] on every string of
    8-bit characters: the padding removed by the encoder is restored from
    the length, and [-]/[_] are mapped back to [+]/[/]. *)
Theorem base64Url_roundtrip (s : string) : base64UrlDecode (base64UrlEncode s) = Some s.
Proof.
  rewrite base64UrlEncode_sextets.
  pose proof (bytes_of_string_range s) as HB.
  pose proof (sextets_range _ HB) as HV.
  unfold base64UrlDecode. rewrite !replace_char_sol, !map_map.
  rewrite (map_ext_in _ b64_char).
  2:{ intros v Hv. rewrite List.Forall_forall in HV.
      destruct (url_char_trip (b64_char v) v (b64_index_char v (HV v Hv))) as [_ [_ C]].
      exact C. }
  rewrite (pad_eq_sextets (bytes_of_string s)) by apply length_map.
  destruct (sextets_length (bytes_of_string s)) as [q Hq].
  rewrite atob_b64; [| exact HV | lia | ].
  - rewrite b64_decode_vals_sextets by exact HB. simpl. now rewrite string_of_bytes_of_string.
  - destruct Hq as [[H1 H2]|[[H1 H2]|[H1 H2]]]; rewrite H1, H2.
    + rewrite Nat.add_0_r, Nat.mul_comm. apply Nat.Div0.mod_mul.
    + replace (4 * q + 2 + 2)%nat with ((q + 1) * 4)%nat by lia. apply Nat.Div0.mod_mul.
    + replace (4 * q + 3 + 1)%nat with ((q + 1) * 4)%nat by lia. apply Nat.Div0.mod_mul.
Qed.

(** [base64UrlEncode] only produces the URL-safe alphabet: letters,
    digits, [-] and [_]; in particular never [+], [/], [=] or a dot. *)
Theorem base64UrlEncode_alphabet (s : string) : all_chars b64url_char (base64UrlEncode s) = true.
Proof.
  rewrite base64UrlEncode_sextets, all_chars_sol.
  pose proof (sextets_range _ (bytes_of_string_range s)) as HV.
  apply forallb_forall. intros x Hx. apply in_map_iff in Hx as [v [<- Hv]].
  rewrite List.Forall_forall in HV.
  destruct (url_char_trip (b64_char v) v (b64_index_char v (HV v Hv))) as [_ [B _]].
  exact B.
Qed.

Lemma str_app_cons (c : ascii) (s t : string) : String c s +:+ t = String c (s +:+ t).
Proof. reflexivity. Qed.

Lemma str_app_nil (t : string) : EmptyString +:+ t = t.
Proof. reflexivity. Qed.

Lemma str_app_assoc (a b c : string) : (a +:+ b) +:+ c = a +:+ (b +:+ c).
Proof.
  induction a as [|ch a IH]; [reflexivity|].
  rewrite !str_app_cons, IH. reflexivity.
Qed.

Lemma split_dot_url (a t : string) :
  all_chars b64url_char a = true -> split_dot (a +:+ String "."%char t) = a :: split_dot t.
Proof.
  induction a as [|c a IH]; [reflexivity|]. rewrite str_app_cons. cbn [split_dot all_chars].
  intros H. apply andb_true_iff in H as [Hc Ha]. rewrite (IH Ha).
  destruct (Ascii.eqb_spec c "."%char) as [->|]; [discriminate Hc|reflexivity].
Qed.

Lemma split_dot_url_end (a : string) :
  all_chars b64url_char a = true -> split_dot a = [a].
Proof.
  induction a as [|c a IH]; cbn [split_dot all_chars]; [reflexivity|].
  intros H. apply andb_true_iff in H as [Hc Ha]. rewrite (IH Ha).
  destruct (Ascii.eqb_spec c "."%char) as [->|]; [discriminate Hc|reflexivity].
Qed.

Lemma bytes_of_string_of_bytes (bs : list Z) :
  Forall is_byte bs -> bytes_of_string (string_of_bytes bs) = bs.
Proof.
  induction 1 as [|b bs Hb _ IH]; simpl; [reflexivity|].
  rewrite IH, byte_of_chr by exact Hb. reflexivity.
Qed.

Lemma split_token (h p s : string) :
  all_chars b64url_char h = true -> all_chars b64url_char p = true ->
  all_chars b64url_char s = true ->
  split_dot ((h +:+ "." +:+ p) +:+ "." +:+ s) = [h; p; s].
Proof.
  intros Hh Hp Hs. rewrite str_app_assoc.
  change ("." +:+ p) with (String "."%char p). change ("." +:+ s) with (String "."%char s).
  rewrite (str_app_cons "."%char p), split_dot_url by exact Hh.
  rewrite split_dot_url by exact Hp. rewrite split_dot_url_end by exact Hs. reflexivity.
Qed.

(** A token issued by [sign] verifies under the same secret, as long as
    the payload's JSON text parses back to the payload, the payload is not
    [null], and its [exp] (if truthy) is not in the past. *)
Theorem sign_then_verify (hmac_sha256 : list Z -> list Z -> list Z)
    (importKey_ok : list Z -> bool) (json_parse : string -> option jsval)
    (str_to_number : string -> option Z) (payload : jsval) (secret token : string) (nowMs : Z) :
  sign hmac_sha256 importKey_ok payload secret = Some token ->
  json_parse (json_stringify payload) = Some payload ->
  payload <> JUndef -> payload <> JNull ->
  Forall is_byte (hmac_sha256 (text_encode secret)
                    (text_encode (base64UrlEncode (json_stringify jwt_header) +:+ "." +:+
                                  base64UrlEncode (json_stringify payload)))) ->
  ~ (truthy (prop payload "exp") = true /\
     js_lt_num str_to_number (prop payload "exp") (nowMs / 1000) = true) ->
  verify hmac_sha256 importKey_ok json_parse str_to_number token secret nowMs = true.
Proof.
  intros Hs Hj HU HN Hb Hx. unfold sign in Hs.
  destruct (importKey_ok (text_encode secret)) eqn:K; [|discriminate]. simpl in Hs.
  injection Hs as <-.
  apply verify_true_iff.
  eexists _, _, _, _, _, payload.
  split; [apply split_token; apply base64UrlEncode_alphabet|].
  split; [exact K|].
  split; [apply base64Url_roundtrip|].
  split; [symmetry; apply bytes_of_string_of_bytes; exact Hb|].
  split; [apply base64Url_roundtrip|].
  split; [exact Hj|]. auto.
Qed.

Lemma no_dot_url (a : string) :
  all_chars b64url_char a = true -> all_chars (fun c => negb (Ascii.eqb c "."%char)) a = true.
Proof.
  induction a as [|c a IH]; cbn [all_chars]; [reflexivity|].
  intros H. apply andb_true_iff in H as [Hc Ha]. rewrite (IH Ha).
  destruct (Ascii.eqb_spec c "."%char) as [->|]; [discriminate Hc|reflexivity].
Qed.

Lemma split_dot_nodot (a t : string) :
  all_chars (fun c => negb (Ascii.eqb c "."%char)) a = true ->
  split_dot (a +:+ String "."%char t) = a :: split_dot t.
Proof.
  induction a as [|c a IH]; [reflexivity|]. rewrite str_app_cons. cbn [split_dot all_chars].
  intros H. apply andb_true_iff in H as [Hc Ha]. rewrite (IH Ha).
  destruct (Ascii.eqb c "."%char); [discriminate Hc|reflexivity].
Qed.

Lemma split_dot_nodot_end (a : string) :
  all_chars (fun c => negb (Ascii.eqb c "."%char)) a = true -> split_dot a = [a].
Proof.
  induction a as [|c a IH]; [reflexivity|]. cbn [split_dot all_chars].
  intros H. apply andb_true_iff in H as [Hc Ha]. rewrite (IH Ha).
  destruct (Ascii.eqb c "."%char); [discriminate Hc|reflexivity].
Qed.

Lemma split_three (h p s : string) :
  all_chars (fun c => negb (Ascii.eqb c "."%char)) h = true ->
  all_chars (fun c => negb (Ascii.eqb c "."%char)) p = true ->
  all_chars (fun c => negb (Ascii.eqb c "."%char)) s = true ->
  split_dot (h +:+ "." +:+ p +:+ "." +:+ s) = [h; p; s].
Proof.
  intros Hh Hp Hs.
  change ("." +:+ p +:+ "." +:+ s) with (String "."%char (p +:+ "." +:+ s)).
  change ("." +:+ s) with (String "."%char s).
  rewrite split_dot_nodot, split_dot_nodot, split_dot_nodot_end by assumption. reflexivity.
Qed.

Lemma sign_some (hmac_sha256 : list Z -> list Z -> list Z) (importKey_ok : list Z -> bool)
    (payload : jsval) (secret token : string) :
  sign hmac_sha256 importKey_ok payload secret = Some token ->
  importKey_ok (text_encode secret) = true /\
  token = (base64UrlEncode (json_stringify jwt_header) +:+ "." +:+
           base64UrlEncode (json_stringify payload)) +:+ "." +:+
          base64UrlEncode (string_of_bytes
            (hmac_sha256 (text_encode secret)
               (text_encode (base64UrlEncode (json_stringify jwt_header) +:+ "." +:+
                             base64UrlEncode (json_stringify payload))))).
Proof.
  unfold sign. destruct (importKey_ok (text_encode secret)); intros H; [|discriminate].
  split; [reflexivity|].
  exact (f_equal (fun o => match o with Some x => x | None => EmptyString end) (eq_sym H)).
Qed.

(** [decode] returns the header and payload of a token issued by [sign],
    and returns the same pair when the signature segment is replaced by any
    dot-free string: it never checks the signature. *)
Theorem decode_ignores_signature (hmac_sha256 : list Z -> list Z -> list Z)
    (importKey_ok : list Z -> bool) (json_parse : string -> option jsval)
    (payload : jsval) (secret token sig : string) :
  sign hmac_sha256 importKey_ok payload secret = Some token ->
  json_parse (json_stringify jwt_header) = Some jwt_header ->
  json_parse (json_stringify payload) = Some payload ->
  all_chars (fun c => negb (Ascii.eqb c "."%char)) sig = true ->
  decode json_parse token = Some (jwt_header, payload) /\
  decode json_parse (base64UrlEncode (json_stringify jwt_header) +:+ "." +:+
                     base64UrlEncode (json_stringify payload) +:+ "." +:+ sig)
  = Some (jwt_header, payload).
Proof.
  intros Hs Hh Hp Hsig. apply sign_some in Hs as [_ ->].
  revert Hh Hp. generalize (json_stringify jwt_header) as hs.
  generalize (json_stringify payload) as ps. intros ps hs Hh Hp.
  unfold decode. rewrite !str_app_assoc, split_three, split_three
    by (assumption || (apply no_dot_url, base64UrlEncode_alphabet)).
  rewrite !base64Url_roundtrip. cbv beta iota. rewrite Hp, Hh. split; reflexivity.
Qed.

(* verifyAuth *)

Lemma prefix_app (s t : string) : String.prefix s (s +:+ t) = true.
Proof.
  induction s as [|c s IH]; [destruct t; reflexivity|].
  rewrite str_app_cons. simpl. destruct (ascii_dec c c); [exact IH|congruence].
Qed.

Lemma prefix_split (s h : string) : String.prefix s h = true -> exists t, h = s +:+ t.
Proof.
  revert h. induction s as [|c s IH]; intros h H; [exists h; reflexivity|].
  destruct h as [|d h]; simpl in H; [discriminate|].
  destruct (ascii_dec c d) as [<-|]; [|discriminate].
  destruct (IH h H) as [t ->]. exists t. reflexivity.
Qed.

Lemma str_length_app (s t : string) :
  String.length (s +:+ t) = (String.length s + String.length t)%nat.
Proof. induction s as [|c s IH]; [reflexivity|]. rewrite str_app_cons. simpl. lia. Qed.

Lemma substring_full (t : string) : String.substring 0 (String.length t) t = t.
Proof. induction t as [|c t IH]; simpl; congruence. Qed.

Lemma substring_after (s t : string) :
  String.substring (String.length s) (String.length t) (s +:+ t) = t.
Proof.
  induction s as [|c s IH]; [apply substring_full|]. rewrite str_app_cons. exact IH.
Qed.

Lemma bearer_substring (t : string) :
  String.substring 7 (String.length ("Bearer " +:+ t) - 7) ("Bearer " +:+ t) = t.
Proof.
  rewrite str_length_app. replace (String.length "Bearer " + String.length t - 7)%nat
    with (String.length t) by (simpl; lia).
  exact (substring_after "Bearer " t).
Qed.

(** [verifyAuth] accepts exactly the headers of the form
    ["Bearer " ^ token] whose token verifies under [env.JWT_SECRET]. *)
Theorem verifyAuth_bearer (hmac_sha256 : list Z -> list Z -> list Z)
    (importKey_ok : list Z -> bool) (json_parse : string -> option jsval)
    (str_to_number : string -> option Z) (authHeader : option string) (e : env) (nowMs : Z) :
  verifyAuth hmac_sha256 importKey_ok json_parse str_to_number authHeader e nowMs = true <->
  exists token, authHeader = Some ("Bearer " +:+ token) /\
    verify hmac_sha256 importKey_ok json_parse str_to_number token (text_arg (JWT_SECRET e)) nowMs
    = true.
Proof.
  split.
  - destruct authHeader as [h|]; simpl; [|discriminate].
    destruct (String.eqb h "") eqn:E; [discriminate|].
    destruct (String.prefix "Bearer " h) eqn:P; [|discriminate]. simpl.
    destruct (prefix_split _ _ P) as [t ->]. intros V. exists t. split; [reflexivity|].
    rewrite bearer_substring in V. exact V.
  - intros [t [-> V]]. unfold verifyAuth. rewrite prefix_app.
    replace (String.eqb ("Bearer " +:+ t) "") with false by reflexivity. cbn [negb].
    rewrite bearer_substring. exact V.
Qed.

(** With [JWT_SECRET] unset (an empty key, refused by [importKey]),
    [verifyAuth] rejects every request. *)
Theorem verifyAuth_without_secret (hmac_sha256 : list Z -> list Z -> list Z)
    (importKey_ok : list Z -> bool) (json_parse : string -> option jsval)
    (str_to_number : string -> option Z) (authHeader : option string) (e : env) (nowMs : Z) :
  importKey_ok [] = false -> text_arg (JWT_SECRET e) = EmptyString ->
  verifyAuth hmac_sha256 importKey_ok json_parse str_to_number authHeader e nowMs = false.
Proof.
  intros K S. destruct authHeader as [h|]; simpl; [|reflexivity].
  destruct (String.eqb h ""); [reflexivity|]. destruct (String.prefix "Bearer " h); [|reflexivity].
  simpl. rewrite S. unfold verify, verify_try.
  destruct (split_dot _) as [|a [|b [|c [|d r]]]]; try reflexivity.
  simpl text_encode. rewrite K. reflexivity.
Qed.

Lemma hex_digit_lower (n : Z) : 0 <= n < 16 -> is_lower_hex (hex_digit n) = true.
Proof.
  intros H. unfold hex_digit, is_lower_hex.
  destruct (Z.ltb_spec n 10); rewrite byte_of_chr by lia; zbools.
Qed.

Lemma hex_digit_variant (r : Z) : 0 <= r < 16 ->
  is_variant_digit (hex_digit (Z.lor (Z.land r 3) 8)) = true.
Proof.
  intros H.
  assert (E : r = 0 \/ r = 1 \/ r = 2 \/ r = 3 \/ r = 4 \/ r = 5 \/ r = 6 \/ r = 7 \/
              r = 8 \/ r = 9 \/ r = 10 \/ r = 11 \/ r = 12 \/ r = 13 \/ r = 14 \/ r = 15) by lia.
  repeat destruct E as [->|E]; try reflexivity; subst; reflexivity.
Qed.

(** [generateUUID] has the version-4 layout: 36 characters, dashes at
    8, 13, 18 and 23, a [4] at 14, one of [8], [9], [a], [b] at 19, and
    lowercase hex digits elsewhere, whenever [Math.random() * 16 | 0] lies
    in [0, 15]. *)
Theorem generateUUID_layout (rand : nat -> Z) :
  (forall i, 0 <= rand i < 16) -> uuid_v4_layout (generateUUID rand) = true.
Proof.
  intros Hr.
  assert (Hx : forall i, is_lower_hex (hex_digit (rand i)) = true)
    by (intros i; apply hex_digit_lower, Hr).
  assert (Hy : forall i, is_variant_digit (hex_digit (Z.lor (Z.land (rand i) 3) 8)) = true)
    by (intros i; apply hex_digit_variant, Hr).
  unfold generateUUID, uuid_v4_layout, uuid_template.
  cbv -[hex_digit is_lower_hex is_variant_digit Z.lor Z.land].
  rewrite !Hx, Hy. reflexivity.
Qed.

Lemma digits_rev_chars (fuel : nat) (n : Z) (acc : string) :
  all_chars (fun c => ((48 <=? byte_of c) && (byte_of c <=? 57)) || (byte_of c =? 45)) acc = true ->
  all_chars (fun c => ((48 <=? byte_of c) && (byte_of c <=? 57)) || (byte_of c =? 45))
    (digits_rev fuel n acc) = true.
Proof.
  revert n acc. induction fuel as [|f IH]; intros n acc H; cbn [digits_rev]; [exact H|].
  assert (Hd : ((48 <=? byte_of (ascii_of_nat (48 + Z.to_nat (n mod 10))))
                && (byte_of (ascii_of_nat (48 + Z.to_nat (n mod 10))) <=? 57)) = true).
  { pose proof (Z.mod_pos_bound n 10 ltac:(lia)).
    replace (ascii_of_nat (48 + Z.to_nat (n mod 10))) with (chr (48 + n mod 10)).
    - rewrite byte_of_chr by lia. zbools.
    - unfold chr. f_equal. lia. }
  destruct (n / 10 =? 0); [|apply IH]; cbn [all_chars]; rewrite Hd; exact H.
Qed.

Lemma digits_rev_nonempty (f : nat) (n : Z) (acc : string) : digits_rev (S f) n acc <> EmptyString.
Proof.
  revert n acc. induction f as [|f IH]; intros n acc; cbn [digits_rev].
  - destruct (n / 10 =? 0); discriminate.
  - destruct (n / 10 =? 0); [discriminate|]. apply IH.
Qed.

Lemma Z_to_plain_dec_chars (n : Z) :
  Z_to_plain_dec n <> EmptyString /\
  all_chars (fun c => ((48 <=? byte_of c) && (byte_of c <=? 57)) || (byte_of c =? 45))
    (Z_to_plain_dec n) = true.
Proof.
  unfold Z_to_plain_dec. destruct (n <? 0).
  - split; [discriminate|]. change ("-" +:+ ?x) with (String "-"%char x). cbn [all_chars].
    apply digits_rev_chars. reflexivity.
  - split; [apply digits_rev_nonempty|]. apply digits_rev_chars. reflexivity.
Qed.

(** A safe integer is rendered in plain decimal. *)
Lemma Z_to_dec_safe (n : Z) : Z.abs n < 2 ^ 53 -> Z_to_dec n = Z_to_plain_dec n.
Proof.
  intros Hn. change (2 ^ 53) with 9007199254740992 in *.
  unfold Z_to_dec, nonneg_number_to_string. change (2 ^ 53) with 9007199254740992.
  destruct (Z.ltb_spec n 0).
  - rewrite Z.abs_neq in Hn by lia.
    replace (- n <? 9007199254740992) with true by (symmetry; apply Z.ltb_lt; lia).
    unfold Z_to_plain_dec. replace (- n <? 0) with false by (symmetry; apply Z.ltb_ge; lia).
    replace (n <? 0) with true by (symmetry; apply Z.ltb_lt; lia).
    rewrite Z.abs_opp. reflexivity.
  - rewrite Z.abs_eq in Hn by lia.
    replace (n <? 9007199254740992) with true by (symmetry; apply Z.ltb_lt; lia).
    reflexivity.
Qed.

Lemma Z_to_dec_chars (n : Z) :
  Z.abs n < 2 ^ 53 ->
  Z_to_dec n <> EmptyString /\
  all_chars (fun c => ((48 <=? byte_of c) && (byte_of c <=? 57)) || (byte_of c =? 45))
    (Z_to_dec n) = true.
Proof. intros Hn. rewrite Z_to_dec_safe by exact Hn. apply Z_to_plain_dec_chars. Qed.

Lemma all_chars_impl (p q : ascii -> bool) (s : string) :
  (forall c, p c = true -> q c = true) -> all_chars p s = true -> all_chars q s = true.
Proof.
  intros Hpq. induction s as [|c s IH]; simpl; [reflexivity|].
  intros H. apply andb_true_iff in H as [H1 H2]. rewrite Hpq, IH by assumption. reflexivity.
Qed.

(** [validateProfileId] accepts every safe integer ([|n| < 2^53]),
    negative ones included: [String(n)] consists of digits and possibly a
    leading [-]. *)
Theorem validateProfileId_number (n : Z) :
  Z.abs n < 2 ^ 53 -> validateProfileId (JNum n) = true.
Proof.
  intros Hn. unfold validateProfileId. simpl js_to_string.
  destruct (Z_to_dec_chars n Hn) as [Hne Hc].
  destruct (String.eqb_spec (Z_to_dec n) "") as [E|_]; [contradiction|]. simpl.
  revert Hc. apply all_chars_impl. intros c.
  unfold profile_id_char, byte_of. generalize (nat_of_ascii c). intros k.
  rewrite !orb_true_iff, !andb_true_iff, !Z.leb_le, !Z.eqb_eq, !Nat.leb_le, !Nat.eqb_eq. lia.
Qed.

Lemma assoc_set_twice (k : string) (x y : jsval) (fs : list (string * jsval)) :
  assoc_set k x (assoc_set k y fs) = assoc_set k x fs.
Proof.
  induction fs as [|[k' v] fs IH]; simpl.
  - rewrite String.eqb_refl. reflexivity.
  - destruct (String.eqb k k') eqn:E; simpl; rewrite E; [reflexivity|]. now rewrite IH.
Qed.

Lemma insert_middle (pre post : list jsval) (x y : jsval) :
  <[length pre := y]> (pre ++ x :: post) = pre ++ y :: post.
Proof. induction pre as [|q pre IH]; simpl; [reflexivity|]. now rewrite IH. Qed.

Lemma is_obj_get (q : jsval) (k : string) : is_obj q -> get_prop q k = Some (prop q k).
Proof. destruct q; simpl; try contradiction; reflexivity. Qed.

Lemma find_index_none (f : jsval -> option bool) (xs : list jsval) (i : Z) :
  Forall (fun q => f q = Some false) xs -> find_index f xs i = Some (-1).
Proof.
  revert i. induction xs as [|q xs IH]; intros i H; simpl; [reflexivity|].
  apply Forall_cons in H as [Hq H]. rewrite Hq. simpl. apply IH, H.
Qed.

(** DELETE [/restaurants/:id] removes the first restaurant whose
    [String(id)] equals the path id, keeps the order of the others, writes
    the document once and answers the deleted record. *)
Theorem restaurant_delete_removes_first_match (e : env) (s : store) (rid : string)
    (fs : list (string * jsval)) (pre post : list jsval) (target : jsval) :
  st_doc s = JObj fs -> st_online s = true ->
  assoc_get "restaurants" fs = JArr (pre ++ target :: post) ->
  Forall (fun r => is_obj r /\ js_to_string (prop r "id") <> rid) pre ->
  is_obj target -> js_to_string (prop target "id") = rid ->
  run s (Restaurants.onRequestDelete e true rid)
  = (inl (successResponse (JObj [("success", JBool true); ("deleted", target)]) e),
     {| st_doc := set_prop (JObj fs) "restaurants" (JArr (pre ++ post));
        st_sha := S (st_sha s); st_online := true |}).
Proof.
  intros Hdoc Hon Hrs Hpre Ht Htid.
  destruct s as [doc sha online]; simpl in Hdoc, Hon |- *; subst doc online.
  unfold Restaurants.onRequestDelete. simpl. rewrite Hrs. simpl.
  rewrite find_index_prefix with (x := target).
  2:{ eapply Forall_impl; [exact Hpre|]. intros q [Hq Hid].
      unfold Restaurants.delete_match. rewrite is_obj_get by exact Hq. simpl.
      apply String.eqb_neq in Hid. rewrite Hid. reflexivity. }
  2:{ unfold Restaurants.delete_match. rewrite is_obj_get by exact Ht. simpl.
      rewrite Htid, String.eqb_refl. reflexivity. }
  simpl. replace (0 + Z.of_nat (length pre) =? -1) with false by (symmetry; apply Z.eqb_neq; lia).
  replace (Z.to_nat (0 + Z.of_nat (length pre))) with (length pre) by lia.
  rewrite take_drop_middle_app, list_lookup_middle by reflexivity. simpl.
  rewrite is_obj_get by exact Ht. simpl. rewrite Nat.eqb_refl. reflexivity.
Qed.

(** DELETE [/restaurants/:id] with no matching restaurant answers 404
    and does not write. *)
Theorem restaurant_delete_not_found (e : env) (s : store) (rid : string)
    (fs : list (string * jsval)) (rs : list jsval) :
  st_doc s = JObj fs -> st_online s = true ->
  assoc_get "restaurants" fs = JArr rs ->
  Forall (fun r => is_obj r /\ js_to_string (prop r "id") <> rid) rs ->
  run s (Restaurants.onRequestDelete e true rid)
  = (inl (errorResponse "Restaurant not found" 404 e), s).
Proof.
  intros Hdoc Hon Hrs Hall.
  destruct s as [doc sha online]; simpl in Hdoc, Hon |- *; subst doc online.
  unfold Restaurants.onRequestDelete. simpl. rewrite Hrs. simpl.
  rewrite find_index_none.
  2:{ eapply Forall_impl; [exact Hall|]. intros q [Hq Hid].
      unfold Restaurants.delete_match. rewrite is_obj_get by exact Hq. simpl.
      apply String.eqb_neq in Hid. rewrite Hid. reflexivity. }
  reflexivity.
Qed.

(** PUT [/restaurants] with a valid payload replaces the first restaurant
    whose [id] is strictly equal to the payload's by the payload itself, at
    the same position, and answers the payload. *)
Theorem restaurant_put_replaces_in_place (e : env) (s : store) (body : jsval) (v : validation)
    (fs : list (string * jsval)) (pre post : list jsval) (target : jsval) :
  validateRestaurantData body = Some v -> valid v = true ->
  is_obj body -> truthy (prop body "id") = true ->
  st_doc s = JObj fs -> st_online s = true ->
  assoc_get "restaurants" fs = JArr (pre ++ target :: post) ->
  Forall (fun r => is_obj r /\ strict_eq (prop r "id") (prop body "id") = false) pre ->
  is_obj target -> strict_eq (prop target "id") (prop body "id") = true ->
  run s (Restaurants.onRequestPut e true (Some body))
  = (inl (successResponse (JObj [("success", JBool true); ("restaurant", body)]) e),
     {| st_doc := set_prop (JObj fs) "restaurants" (JArr (pre ++ body :: post));
        st_sha := S (st_sha s); st_online := true |}).
Proof.
  intros Hv Hvalid Hb Hid Hdoc Hon Hrs Hpre Ht Htid.
  destruct s as [doc sha online]; simpl in Hdoc, Hon |- *; subst doc online.
  unfold Restaurants.onRequestPut. simpl. rewrite Hv. simpl. rewrite Hvalid. simpl.
  rewrite is_obj_get by exact Hb. simpl. rewrite Hid. simpl. rewrite Hrs. simpl.
  rewrite find_index_prefix with (x := target).
  2:{ eapply Forall_impl; [exact Hpre|]. intros q [Hq Hne].
      unfold Restaurants.put_match. rewrite is_obj_get by exact Hq. simpl. rewrite Hne. reflexivity. }
  2:{ unfold Restaurants.put_match. rewrite is_obj_get by exact Ht. simpl. rewrite Htid. reflexivity. }
  simpl. replace (0 + Z.of_nat (length pre) =? -1) with false by (symmetry; apply Z.eqb_neq; lia).
  replace (Z.to_nat (0 + Z.of_nat (length pre))) with (length pre) by lia.
  rewrite insert_middle. simpl.
  rewrite is_obj_get by exact Hb. simpl. rewrite Nat.eqb_refl. reflexivity.
Qed.

(** POST [/restaurants] with a valid payload appends it at the end of
    [restaurants] (created when missing), with the generated UUID as [id]
    when its own [id] is falsy; no uniqueness check is made. *)
Theorem restaurant_post_appends (e : env) (s : store) (body : jsval) (v : validation) (uuid : string)
    (fs : list (string * jsval)) (rs : list jsval) :
  validateRestaurantData body = Some v -> valid v = true -> is_obj body ->
  st_doc s = JObj fs -> st_online s = true ->
  (assoc_get "restaurants" fs = JArr rs \/
   (truthy (assoc_get "restaurants" fs) = false /\ rs = [])) ->
  let body' := if truthy (prop body "id") then body else set_prop body "id" (JStr uuid) in
  run s (Restaurants.onRequestPost e true (Some body) uuid)
  = (inl (successResponse (JObj [("success", JBool true); ("restaurant", body')]) e),
     {| st_doc := set_prop (JObj fs) "restaurants" (JArr (rs ++ [body']));
        st_sha := S (st_sha s); st_online := true |}).
Proof.
  intros Hv Hvalid Hb Hdoc Hon Hrs body'.
  destruct s as [doc sha online]; simpl in Hdoc, Hon |- *; subst doc online.
  assert (Hb' : is_obj body').
  { unfold body'. destruct (truthy (prop body "id")); [exact Hb|].
    destruct body; simpl in Hb |- *; try contradiction; exact I. }
  unfold Restaurants.onRequestPost. simpl. rewrite Hv. simpl. rewrite Hvalid. simpl.
  rewrite is_obj_get by exact Hb. simpl.
  destruct Hrs as [Hrs|[Hrs ->]].
  - rewrite Hrs. simpl.
    replace (if negb (truthy (prop body "id")) then set_prop body "id" (JStr uuid) else body)
      with body' by (unfold body'; destruct (truthy (prop body "id")); reflexivity).
    rewrite Hrs. simpl. rewrite is_obj_get by exact Hb'. simpl. rewrite Nat.eqb_refl. reflexivity.
  - rewrite Hrs. simpl.
    replace (if negb (truthy (prop body "id")) then set_prop body "id" (JStr uuid) else body)
      with body' by (unfold body'; destruct (truthy (prop body "id")); reflexivity).
    rewrite assoc_get_set_eq. simpl. rewrite is_obj_get by exact Hb'. simpl.
    rewrite Nat.eqb_refl, assoc_set_twice. reflexivity.
Qed.


(** PUT [/profiles] changes only the [name] of the first profile with the
    payload's [id]: its other fields and position are kept, and the other
    fields of the payload are ignored. *)
Theorem profile_put_renames_in_place (e : env) (s : store) (body : jsval)
    (fs : list (string * jsval)) (pre post : list jsval) (tfs : list (string * jsval)) :
  is_obj body -> truthy (prop body "id") = true -> truthy (prop body "name") = true ->
  strict_eq (prop body "id") (JStr "all") = false ->
  st_doc s = JObj fs -> st_online s = true ->
  assoc_get "profiles" fs = JArr (pre ++ JObj tfs :: post) ->
  Forall (fun p => is_obj p /\ strict_eq (prop p "id") (prop body "id") = false) pre ->
  strict_eq (prop (JObj tfs) "id") (prop body "id") = true ->
  let updated := JObj (assoc_set "name" (prop body "name") tfs) in
  run s (Profiles.onRequestPut e true (Some body))
  = (inl (successResponse (JObj [("success", JBool true); ("profile", updated)]) e),
     {| st_doc := set_prop (JObj fs) "profiles" (JArr (pre ++ updated :: post));
        st_sha := S (st_sha s); st_online := true |}).
Proof.
  intros Hb Hid Hname Hall Hdoc Hon Hps Hpre Ht updated.
  destruct s as [doc sha online]; simpl in Hdoc, Hon |- *; subst doc online.
  unfold Profiles.onRequestPut. simpl.
  rewrite is_obj_get by exact Hb. simpl. rewrite Hid. simpl.
  rewrite is_obj_get by exact Hb. simpl. rewrite Hname. simpl. rewrite Hall. simpl.
  rewrite Hps. simpl.
  rewrite find_index_prefix with (x := JObj tfs).
  2:{ eapply Forall_impl; [exact Hpre|]. intros q [Hq Hne].
      unfold Profiles.id_match. rewrite is_obj_get by exact Hq. simpl. rewrite Hne. reflexivity. }
  2:{ unfold Profiles.id_match. rewrite (is_obj_get (JObj tfs)) by exact I. simpl. rewrite Ht. reflexivity. }
  simpl. replace (0 + Z.of_nat (length pre) =? -1) with false by (symmetry; apply Z.eqb_neq; lia).
  replace (Z.to_nat (0 + Z.of_nat (length pre))) with (length pre) by lia.
  rewrite list_lookup_middle by reflexivity. simpl.
  rewrite insert_middle. rewrite Nat.eqb_refl. reflexivity.
Qed.

(** POST [/profiles] with a fresh, valid, non-reserved id appends the
    payload to [profiles]; when [profiles] is missing, the list is first
    seeded with the default ["all"] profile. *)
Theorem profile_post_appends (e : env) (s : store) (body : jsval)
    (fs : list (string * jsval)) (ps : list jsval) :
  is_obj body -> truthy (prop body "id") = true -> truthy (prop body "name") = true ->
  validateProfileId (prop body "id") = true ->
  includes_str Profiles.reservedIds (prop body "id") = false ->
  st_doc s = JObj fs -> st_online s = true ->
  (assoc_get "profiles" fs = JArr ps \/
   (truthy (assoc_get "profiles" fs) = false /\ ps = [default_profile])) ->
  Forall (fun p => is_obj p /\ strict_eq (prop p "id") (prop body "id") = false) ps ->
  run s (Profiles.onRequestPost e true (Some body))
  = (inl (successResponse (JObj [("success", JBool true); ("profile", body)]) e),
     {| st_doc := set_prop (JObj fs) "profiles" (JArr (ps ++ [body]));
        st_sha := S (st_sha s); st_online := true |}).
Proof.
  intros Hb Hid Hname Hvalid Hres Hdoc Hon Hps Hall.
  destruct s as [doc sha online]; simpl in Hdoc, Hon |- *; subst doc online.
  unfold Profiles.onRequestPost. cbn -[validateProfileId includes_str Profiles.reservedIds].
  rewrite is_obj_get by exact Hb. cbn -[validateProfileId includes_str Profiles.reservedIds]. rewrite Hid.
  cbn -[validateProfileId includes_str Profiles.reservedIds].
  rewrite is_obj_get by exact Hb. cbn -[validateProfileId includes_str Profiles.reservedIds]. rewrite Hname.
  cbn -[validateProfileId includes_str Profiles.reservedIds]. rewrite Hvalid, Hres. simpl.
  assert (Hnone : find_index (Profiles.id_match (prop body "id")) ps 0 = Some (-1)).
  { apply find_index_none. eapply Forall_impl; [exact Hall|]. intros q [Hq Hne].
    unfold Profiles.id_match. rewrite is_obj_get by exact Hq. simpl. rewrite Hne. reflexivity. }
  destruct Hps as [Hps|[Hps ->]].
  - rewrite Hps. simpl. rewrite Hps. simpl. unfold Profiles.array_find_truthy. simpl.
    rewrite Hnone. simpl. rewrite Nat.eqb_refl. reflexivity.
  - rewrite Hps. simpl. rewrite assoc_get_set_eq. simpl.
    unfold Profiles.array_find_truthy. simpl. simpl in Hnone. rewrite Hnone. simpl.
    rewrite Nat.eqb_refl, assoc_set_twice. reflexivity.
Qed.

(** POST [/profiles] with the id of an existing profile answers 400 and
    does not write. *)
Theorem profile_post_duplicate_rejected (e : env) (s : store) (body : jsval)
    (fs : list (string * jsval)) (pre post : list jsval) (target : jsval) :
  is_obj body -> truthy (prop body "id") = true -> truthy (prop body "name") = true ->
  validateProfileId (prop body "id") = true ->
  includes_str Profiles.reservedIds (prop body "id") = false ->
  st_doc s = JObj fs -> st_online s = true ->
  assoc_get "profiles" fs = JArr (pre ++ target :: post) ->
  Forall (fun p => is_obj p /\ strict_eq (prop p "id") (prop body "id") = false) pre ->
  is_obj target -> strict_eq (prop target "id") (prop body "id") = true ->
  run s (Profiles.onRequestPost e true (Some body))
  = (inl (errorResponse "Profile with this ID already exists" 400 e), s).
Proof.
  intros Hb Hid Hname Hvalid Hres Hdoc Hon Hps Hpre Ht Htid.
  destruct s as [doc sha online]; simpl in Hdoc, Hon |- *; subst doc online.
  unfold Profiles.onRequestPost. cbn -[validateProfileId includes_str Profiles.reservedIds].
  rewrite is_obj_get by exact Hb. cbn -[validateProfileId includes_str Profiles.reservedIds]. rewrite Hid.
  cbn -[validateProfileId includes_str Profiles.reservedIds].
  rewrite is_obj_get by exact Hb. cbn -[validateProfileId includes_str Profiles.reservedIds]. rewrite Hname.
  cbn -[validateProfileId includes_str Profiles.reservedIds]. rewrite Hvalid, Hres. simpl.
  rewrite Hps. simpl. rewrite Hps. simpl. unfold Profiles.array_find_truthy. simpl.
  rewrite find_index_prefix with (x := target).
  2:{ eapply Forall_impl; [exact Hpre|]. intros q [Hq Hne].
      unfold Profiles.id_match. rewrite is_obj_get by exact Hq. simpl. rewrite Hne. reflexivity. }
  2:{ unfold Profiles.id_match. rewrite is_obj_get by exact Ht. simpl. rewrite Htid. reflexivity. }
  simpl. replace (0 + Z.of_nat (length pre) =? -1) with false by (symmetry; apply Z.eqb_neq; lia).
  replace (Z.to_nat (0 + Z.of_nat (length pre))) with (length pre) by lia.
  rewrite list_lookup_middle by reflexivity. simpl.
  destruct target; simpl in Ht |- *; try contradiction; reflexivity.
Qed.

(** DELETE [/profiles/:id] with no profile whose [id] is the path string
    answers 404 and does not write. *)
Theorem profile_delete_not_found (e : env) (s : store) (pid : string)
    (fs : list (string * jsval)) (ps : list jsval) :
  pid <> "all" -> st_doc s = JObj fs -> st_online s = true ->
  assoc_get "profiles" fs = JArr ps ->
  Forall (fun p => is_obj p /\ strict_eq (prop p "id") (JStr pid) = false) ps ->
  run s (Profiles.onRequestDelete e true pid)
  = (inl (errorResponse "Profile not found" 404 e), s).
Proof.
  intros Hall Hdoc Hon Hps Hnone.
  destruct s as [doc sha online]; simpl in Hdoc, Hon |- *; subst doc online.
  unfold Profiles.onRequestDelete. apply String.eqb_neq in Hall. rewrite Hall.
  simpl. rewrite Hps. simpl.
  rewrite find_index_none; [reflexivity|].
  eapply Forall_impl; [exact Hnone|]. intros q [Hq Hne].
  unfold Profiles.id_match. rewrite is_obj_get by exact Hq. simpl. rewrite Hne. reflexivity.
Qed.

Lemma default_profile_other (v : jsval) :
  strict_eq v (JStr "all") = false -> strict_eq (prop default_profile "id") v = false.
Proof.
  intros H. destruct v as [| |b|n|t|xs|fs']; try reflexivity.
  change (String.eqb "all" t = false). rewrite String.eqb_sym. exact H.
Qed.

Lemma includes_reserved (v : jsval) :
  includes_str Profiles.reservedIds v = false -> strict_eq v (JStr "all") = false.
Proof.
  destruct v as [| |b|n|t|xs|fs']; try reflexivity. unfold includes_str.
  change (String.eqb "all" t || false = false -> String.eqb t "all" = false).
  rewrite orb_false_r, String.eqb_sym. exact id.
Qed.

(** On a document without profiles, a successful POST [/profiles]
    followed by GET [/profiles] lists the default ["all"] profile, then the
    new one. *)
Theorem profile_post_then_get (e : env) (s : store) (body : jsval) (fs : list (string * jsval)) :
  is_obj body -> truthy (prop body "id") = true -> truthy (prop body "name") = true ->
  validateProfileId (prop body "id") = true ->
  includes_str Profiles.reservedIds (prop body "id") = false ->
  st_doc s = JObj fs -> st_online s = true ->
  truthy (assoc_get "profiles" fs) = false ->
  let s1 := snd (run s (Profiles.onRequestPost e true (Some body))) in
  fst (run s1 (Profiles.onRequestGet e))
  = inl {| status := 200; headers := get_headers e;
           resp_body := JObj [("profiles", JArr [default_profile; body])] |}.
Proof.
  intros Hb Hid Hname Hvalid Hres Hdoc Hon Hps s1. subst s1.
  rewrite (profile_post_appends e s body fs [default_profile]); try assumption.
  - simpl. rewrite assoc_get_set_eq. reflexivity.
  - right. split; [exact Hps|reflexivity].
  - constructor; [|constructor]. split; [exact I|].
    apply default_profile_other, includes_reserved, Hres.
Qed.


Lemma cleanup_lookup_sub (m : gmap string rl_entry) (now : Z) (k : string) (en : rl_entry) :
  cleanup now m !! k = Some en -> m !! k = Some en.
Proof.
  unfold cleanup. case_match; [|exact id].
  intros Hf. apply map_lookup_filter_Some in Hf. apply Hf.
Qed.

Lemma checkRateLimit_store (m : gmap string rl_entry) (ip : option string) (mx w now : Z) :
  exists en, snd (checkRateLimit m ip mx w now) = <[client_key ip := en]> (cleanup now m).
Proof.
  unfold checkRateLimit. destruct (cleanup now m !! client_key ip) as [entry|].
  - destruct (now >? resetAt entry); [eexists; reflexivity|].
    simpl. destruct (count entry + 1 >? mx); eexists; reflexivity.
  - eexists; reflexivity.
Qed.

(** A call to [checkRateLimit] leaves the entry of every other client
    key as it was, when that entry's window has not passed or when the store
    holds at most 10000 keys (no clean-up). *)
Theorem checkRateLimit_other_key_kept (m : gmap string rl_entry) (ip : option string)
    (mx w now : Z) (k : string) (en : rl_entry) :
  k <> client_key ip -> m !! k = Some en ->
  (now <= resetAt en \/ (Z.of_nat (size m) <= 10000)%Z) ->
  snd (checkRateLimit m ip mx w now) !! k = Some en.
Proof.
  intros Hk Hm Hkeep. destruct (checkRateLimit_store m ip mx w now) as [en' ->].
  rewrite lookup_insert_ne by congruence.
  destruct Hkeep as [Hle|Hsmall].
  - apply cleanup_lookup_live; assumption.
  - unfold cleanup. replace (10000 <? Z.of_nat (size m)) with false by (symmetry; apply Z.ltb_ge; lia).
    exact Hm.
Qed.

(** With more than 10000 keys, a call to [checkRateLimit] deletes the
    entry of every other client key whose window has passed. *)
Theorem checkRateLimit_other_key_evicted (m : gmap string rl_entry) (ip : option string)
    (mx w now : Z) (k : string) (en : rl_entry) :
  k <> client_key ip -> m !! k = Some en -> now > resetAt en ->
  (10000 < Z.of_nat (size m))%Z ->
  snd (checkRateLimit m ip mx w now) !! k = None.
Proof.
  intros Hk Hm Hgt Hbig. destruct (checkRateLimit_store m ip mx w now) as [en' ->].
  rewrite lookup_insert_ne by congruence.
  unfold cleanup. replace (10000 <? Z.of_nat (size m)) with true by (symmetry; apply Z.ltb_lt; lia).
  apply map_lookup_filter_None. right. intros x Hx. rewrite Hm in Hx. injection Hx as <-.
  simpl. lia.
Qed.

(** With [maxRequests >= 1] and every stored count at least 1,
    [remaining] lies in [0, maxRequests - 1], is 0 on a refusal, and every
    count of the new store is still at least 1. *)
Theorem checkRateLimit_remaining_bounds (m : gmap string rl_entry) (ip : option string)
    (mx w now : Z) :
  1 <= mx -> map_Forall (fun _ en => 1 <= count en) m ->
  0 <= remaining (fst (checkRateLimit m ip mx w now)) <= mx - 1 /\
  (allowed (fst (checkRateLimit m ip mx w now)) = false ->
     remaining (fst (checkRateLimit m ip mx w now)) = 0) /\
  map_Forall (fun _ en => 1 <= count en) (snd (checkRateLimit m ip mx w now)).
Proof.
  intros Hmx Hm.
  assert (Hc : map_Forall (fun _ en => 1 <= count en) (cleanup now m)).
  { intros k en Hk. apply (Hm k en), (cleanup_lookup_sub _ now), Hk. }
  unfold checkRateLimit.
  destruct (cleanup now m !! client_key ip) as [entry|] eqn:E.
  - pose proof (Hc _ _ E) as He. simpl in He.
    destruct (now >? resetAt entry).
    + simpl. split; [lia|]. split; [discriminate|].
      apply map_Forall_insert_2; [simpl; lia|exact Hc].
    + simpl. destruct (count entry + 1 >? mx) eqn:G; simpl.
      * split; [lia|]. split; [reflexivity|]. apply map_Forall_insert_2; [simpl; lia|exact Hc].
      * rewrite Z.gtb_ltb, Z.ltb_ge in G. split; [lia|]. split; [discriminate|].
        apply map_Forall_insert_2; [simpl; lia|exact Hc].
  - simpl. split; [lia|]. split; [discriminate|].
    apply map_Forall_insert_2; [simpl; lia|exact Hc].
Qed.

(** Below the rate limit, a login whose body has a readable [password]
    answers 500 when [JWT_SECRET] is falsy, whatever the password. *)
Theorem auth_without_secret_500 (jwt_sign : jsval -> jsval -> string) (e : env)
    (m : gmap string rl_entry) (req : auth_request) (clock : nat -> Z) (sid : string)
    (b pw : jsval) :
  truthy (JWT_SECRET e) = false ->
  allowed (fst (checkRateLimit m (ar_ip req) 5 60000 (clock 0%nat))) = true ->
  ar_body req = Some b -> get_prop b "password" = Some pw ->
  fst (auth_onRequestPost jwt_sign e m req clock sid)
  = auth_error e 500 "Server configuration error: JWT_SECRET not set".
Proof.
  intros Hs Ha Hb Hp. unfold auth_onRequestPost.
  destruct (checkRateLimit m (ar_ip req) 5 60000 (clock 0%nat)) as [rc m']. simpl in Ha.
  rewrite Ha, Hb, Hp, Hs. reflexivity.
Qed.

(** With [ADMIN_PASSWORD] unset and [JWT_SECRET] set, a login whose body
    has no [password] field is accepted and gets a token: [undefined ===
    undefined]. *)
Theorem auth_unset_password_accepts_missing (jwt_sign : jsval -> jsval -> string) (e : env)
    (m : gmap string rl_entry) (req : auth_request) (clock : nat -> Z) (sid : string)
    (b : jsval) :
  ADMIN_PASSWORD e = JUndef -> truthy (JWT_SECRET e) = true ->
  allowed (fst (checkRateLimit m (ar_ip req) 5 60000 (clock 0%nat))) = true ->
  ar_body req = Some b -> get_prop b "password" = Some JUndef ->
  fst (auth_onRequestPost jwt_sign e m req clock sid)
  = successResponse
      (JObj [("authenticated", JBool true);
             ("token", JStr (jwt_sign (auth_payload sid (clock 1%nat) (clock 2%nat)) (JWT_SECRET e)))]) e.
Proof.
  intros Hpw Hs Ha Hb Hp. unfold auth_onRequestPost.
  destruct (checkRateLimit m (ar_ip req) 5 60000 (clock 0%nat)) as [rc m']. simpl in Ha.
  rewrite Ha, Hb, Hp, Hs, Hpw. reflexivity.
Qed.

Lemma filter_negb_nil_iff {A} (p : A -> bool) (xs : list A) :
  List.filter (fun x => negb (p x)) xs = [] <-> Forall (fun x => p x = true) xs.
Proof.
  induction xs as [|x xs IH]; cbn [List.filter].
  - split; [constructor|reflexivity].
  - rewrite Forall_cons_iff. destruct (p x); cbn [negb].
    + rewrite IH. tauto.
    + split; [discriminate|]. intros [H _]. discriminate.
Qed.

Lemma includes_str_true (xs : list string) (v : jsval) :
  includes_str xs v = true <-> exists t, In t xs /\ v = JStr t.
Proof.
  unfold includes_str. rewrite existsb_exists. split.
  - intros [t [Ht Heq]]. exists t. split; [exact Ht|].
    destruct v as [| |b|n|u|ys|fs]; try discriminate.
    change (String.eqb t u = true) in Heq. apply String.eqb_eq in Heq. subst. reflexivity.
  - intros [t [Ht ->]]. exists t. split; [exact Ht|]. apply String.eqb_refl.
Qed.

(** [validateServiceTypes] reports valid exactly when every element is
    one of the strings [takeout], [delivery], [dine-in], [at-home]. *)
Theorem validateServiceTypes_valid_iff (sts : list jsval) :
  sv_valid (validateServiceTypes sts) = true <->
  Forall (fun st => exists t, In t validServiceTypes /\ st = JStr t) sts.
Proof.
  unfold validateServiceTypes. cbn [sv_valid].
  rewrite Nat.eqb_eq, length_zero_iff_nil, filter_negb_nil_iff.
  split; intros H; (eapply Forall_impl; [exact H|]); intros x; apply includes_str_true.
Qed.

(** Instances of the further properties on concrete inputs. *)

Lemma sign_then_verify_witness :
  sign_c session_payload "s" = Some session_token /\
  verify_c session_token "s" 1700000000000 = true.
Proof.
  split; [vm_compute; reflexivity|].
  apply (sign_then_verify Sha256.hmac importKey_nonempty JsonFragment.parse
           JsonFragment.to_number session_payload "s" session_token 1700000000000).
  - vm_compute. reflexivity.
  - vm_compute. reflexivity.
  - discriminate.
  - discriminate.
  - unfold is_byte. apply (bool_decide_unpack _). vm_compute. reflexivity.
  - vm_compute. intros [_ H]. discriminate.
Defined.

Lemma decode_ignores_signature_witness :
  sign_c session_payload "s" = Some session_token /\
  decode JsonFragment.parse session_token = Some (jwt_header, session_payload) /\
  decode JsonFragment.parse
    (base64UrlEncode (json_stringify jwt_header) +:+ "." +:+
     base64UrlEncode (json_stringify session_payload) +:+ "." +:+ "forged")
  = Some (jwt_header, session_payload).
Proof.
  split; [vm_compute; reflexivity|].
  apply (decode_ignores_signature Sha256.hmac importKey_nonempty JsonFragment.parse
           session_payload "s" session_token "forged").
  - vm_compute. reflexivity.
  - vm_compute. reflexivity.
  - vm_compute. reflexivity.
  - reflexivity.
Defined.

Lemma verifyAuth_without_secret_witness :
  verify_c session_token "s" 1700000000000 = true /\
  verifyAuth Sha256.hmac importKey_nonempty JsonFragment.parse JsonFragment.to_number
    (Some ("Bearer " +:+ session_token)) no_secret_env 1700000000000 = false.
Proof.
  split; [vm_compute; reflexivity|].
  apply verifyAuth_without_secret; reflexivity.
Defined.

Lemma restaurant_delete_removes_first_match_witness :
  run cascade_store (Restaurants.onRequestDelete rl_demo_env true "r2")
  = (inl (successResponse (JObj [("success", JBool true);
                                 ("deleted", nth 1 cascade_restaurants JUndef)]) rl_demo_env),
     {| st_doc := set_prop (JObj cascade_fields) "restaurants"
                    (JArr ([nth 0 cascade_restaurants JUndef] ++ []));
        st_sha := S (st_sha cascade_store); st_online := true |}).
Proof.
  apply (restaurant_delete_removes_first_match rl_demo_env cascade_store "r2" cascade_fields
           [nth 0 cascade_restaurants JUndef] [] (nth 1 cascade_restaurants JUndef));
    try reflexivity; try exact I.
  repeat constructor. vm_compute. discriminate.
Defined.

Lemma restaurant_delete_not_found_witness :
  run cascade_store (Restaurants.onRequestDelete rl_demo_env true "r9")
  = (inl (errorResponse "Restaurant not found" 404 rl_demo_env), cascade_store).
Proof.
  apply (restaurant_delete_not_found rl_demo_env cascade_store "r9" cascade_fields
           cascade_restaurants); try reflexivity.
  repeat constructor; vm_compute; discriminate.
Defined.

Lemma restaurant_put_replaces_in_place_witness :
  run cascade_store (Restaurants.onRequestPut rl_demo_env true (Some thai_update))
  = (inl (successResponse (JObj [("success", JBool true); ("restaurant", thai_update)]) rl_demo_env),
     {| st_doc := set_prop (JObj cascade_fields) "restaurants"
                    (JArr ([nth 0 cascade_restaurants JUndef] ++ thai_update :: []));
        st_sha := S (st_sha cascade_store); st_online := true |}).
Proof.
  apply (restaurant_put_replaces_in_place rl_demo_env cascade_store thai_update
           {| valid := true; errors := [] |} cascade_fields
           [nth 0 cascade_restaurants JUndef] [] (nth 1 cascade_restaurants JUndef));
    try reflexivity; try exact I.
  all: try (vm_compute; reflexivity).
  all: repeat constructor.
Defined.

Lemma restaurant_post_appends_witness :
  run cascade_store (Restaurants.onRequestPost rl_demo_env true (Some new_restaurant) "u-1")
  = (inl (successResponse (JObj [("success", JBool true);
                                 ("restaurant", set_prop new_restaurant "id" (JStr "u-1"))])
            rl_demo_env),
     {| st_doc := set_prop (JObj cascade_fields) "restaurants"
                    (JArr (cascade_restaurants ++ [set_prop new_restaurant "id" (JStr "u-1")]));
        st_sha := S (st_sha cascade_store); st_online := true |}).
Proof.
  exact (restaurant_post_appends rl_demo_env cascade_store new_restaurant
           {| valid := true; errors := [] |} "u-1" cascade_fields cascade_restaurants
           (eq_refl _) eq_refl I eq_refl eq_refl (or_introl eq_refl)).
Defined.

Lemma profile_put_renames_in_place_witness :
  run cascade_store (Profiles.onRequestPut rl_demo_env true
                       (Some (JObj [("id", JStr "kids"); ("name", JStr "Children")])))
  = (inl (successResponse (JObj [("success", JBool true);
                                 ("profile", JObj [("id", JStr "kids"); ("name", JStr "Children")])])
            rl_demo_env),
     {| st_doc := set_prop (JObj cascade_fields) "profiles"
                    (JArr ([nth 0 cascade_profiles JUndef] ++
                           JObj [("id", JStr "kids"); ("name", JStr "Children")] :: []));
        st_sha := S (st_sha cascade_store); st_online := true |}).
Proof.
  apply (profile_put_renames_in_place rl_demo_env cascade_store
           (JObj [("id", JStr "kids"); ("name", JStr "Children")]) cascade_fields
           [nth 0 cascade_profiles JUndef] [] [("id", JStr "kids"); ("name", JStr "Kids")]);
    try reflexivity; try exact I.
  repeat constructor.
Defined.

Lemma profile_post_appends_witness :
  run cascade_store (Profiles.onRequestPost rl_demo_env true (Some vegan_profile))
  = (inl (successResponse (JObj [("success", JBool true); ("profile", vegan_profile)]) rl_demo_env),
     {| st_doc := set_prop (JObj cascade_fields) "profiles"
                    (JArr (cascade_profiles ++ [vegan_profile]));
        st_sha := S (st_sha cascade_store); st_online := true |}).
Proof.
  apply (profile_post_appends rl_demo_env cascade_store vegan_profile cascade_fields
           cascade_profiles); try reflexivity; try exact I.
  - left. reflexivity.
  - repeat constructor.
Defined.

Lemma profile_post_duplicate_rejected_witness :
  run cascade_store (Profiles.onRequestPost rl_demo_env true
                       (Some (JObj [("id", JStr "kids"); ("name", JStr "Kids 2")])))
  = (inl (errorResponse "Profile with this ID already exists" 400 rl_demo_env), cascade_store).
Proof.
  apply (profile_post_duplicate_rejected rl_demo_env cascade_store
           (JObj [("id", JStr "kids"); ("name", JStr "Kids 2")]) cascade_fields
           [nth 0 cascade_profiles JUndef] [] (nth 1 cascade_profiles JUndef));
    try reflexivity; try exact I.
  repeat constructor.
Defined.

Lemma profile_delete_not_found_witness :
  run cascade_store (Profiles.onRequestDelete rl_demo_env true "vegan")
  = (inl (errorResponse "Profile not found" 404 rl_demo_env), cascade_store).
Proof.
  apply (profile_delete_not_found rl_demo_env cascade_store "vegan" cascade_fields
           cascade_profiles); try reflexivity.
  - discriminate.
  - repeat constructor.
Defined.

Lemma profile_post_then_get_witness :
  fst (run (snd (run legacy_store (Profiles.onRequestPost rl_demo_env true (Some vegan_profile))))
           (Profiles.onRequestGet rl_demo_env))
  = inl {| status := 200; headers := get_headers rl_demo_env;
           resp_body := JObj [("profiles", JArr [default_profile; vegan_profile])] |}.
Proof.
  exact (profile_post_then_get rl_demo_env legacy_store vegan_profile
           [("restaurants", JArr [legacy_restaurant])]
           I eq_refl eq_refl eq_refl eq_refl eq_refl eq_refl eq_refl).
Defined.


Lemma generateUUID_layout_witness :
  uuid_v4_layout (generateUUID (fun i => Z.of_nat i mod 16)) = true.
Proof.
  apply generateUUID_layout. intros i. apply Z.mod_pos_bound. lia.
Defined.

Lemma checkRateLimit_other_key_kept_witness :
  snd (checkRateLimit demo_rl_store (Some "10.0.0.9") 5 60000 500) !! "10.0.0.1"
  = Some {| count := 3; resetAt := 100 |}.
Proof.
  apply checkRateLimit_other_key_kept.
  - discriminate.
  - reflexivity.
  - right. vm_compute. discriminate.
Defined.

Lemma checkRateLimit_remaining_bounds_witness :
  0 <= remaining (fst (checkRateLimit demo_rl_store (Some "10.0.0.1") 5 60000 50)) <= 5 - 1 /\
  (allowed (fst (checkRateLimit demo_rl_store (Some "10.0.0.1") 5 60000 50)) = false ->
     remaining (fst (checkRateLimit demo_rl_store (Some "10.0.0.1") 5 60000 50)) = 0) /\
  map_Forall (fun _ en => 1 <= count en)
    (snd (checkRateLimit demo_rl_store (Some "10.0.0.1") 5 60000 50)).
Proof.
  apply checkRateLimit_remaining_bounds; [lia|].
  apply map_Forall_singleton. simpl. lia.
Defined.

Lemma auth_without_secret_500_witness :
  fst (auth_onRequestPost (fun _ _ => "tok") no_secret_env ∅ auth_login_req (fun _ => 0) "sid")
  = auth_error no_secret_env 500 "Server configuration error: JWT_SECRET not set".
Proof.
  apply (auth_without_secret_500 _ _ _ _ _ _ (JObj [("password", JStr "pw")]) (JStr "pw"));
    reflexivity.
Defined.

Lemma auth_unset_password_accepts_missing_witness :
  fst (auth_onRequestPost (fun _ _ => "tok") open_env ∅ empty_login_req (fun _ => 0) "sid")
  = successResponse (JObj [("authenticated", JBool true); ("token", JStr "tok")]) open_env.
Proof.
  exact (auth_unset_password_accepts_missing (fun _ _ => "tok") open_env ∅ empty_login_req
           (fun _ => 0) "sid" (JObj []) eq_refl eq_refl eq_refl eq_refl eq_refl).
Defined.

Lemma checkRateLimit_other_key_evicted_witness :
  snd (checkRateLimit crowded_rl_store None 5 60000 10) !! "1" = None.
Proof.
  apply (checkRateLimit_other_key_evicted _ _ _ _ _ _ {| count := 1; resetAt := 0 |}).
  - discriminate.
  - vm_compute. reflexivity.
  - simpl. lia.
  - vm_compute. reflexivity.
Defined.

Lemma validateProfileId_number_witness :
  Z.abs (-42) < 2 ^ 53 /\ validateProfileId (JNum (-42)) = true.
Proof. split; [reflexivity | apply (validateProfileId_number (-42)); reflexivity]. Defined.
